(** * xrpl-py binary codec: the Amount field

    A shallow embedding of [xrpl/binary_codec/types/amount.py] together with
    the fragments of the Python runtime it relies on (string methods,
    [int], [int.to_bytes]/[int.from_bytes] and the [decimal] module under the
    context the module installs at import time), followed by the properties
    of the codec. *)

From Stdlib Require Import ZArith List String Ascii Bool Lia.
From Stdlib Require Import Strings.Byte.
From Stdlib Require Import Permutation.
Import ListNotations.

Local Open Scope string_scope.
Local Open Scope Z_scope.

(* ================================================================== *)
(** ** Exceptions and the error monad *)

(** The exceptions that can leave the module.  [XRPLBinaryCodecException]
    is the codec's own; the others are raised by the Python runtime. *)
Inductive exn : Set :=
| XRPLBinaryCodecException
| ValueError
| TypeError
| KeyError
| IndexError
| OverflowError
| DecimalInvalidOperation
| DecimalOverflow
| BufferUnderrun.

Inductive result (A : Type) : Type :=
| Ok (a : A)
| Raise (e : exn).

Arguments Ok {A} a.
Arguments Raise {A} e.

Definition bind {A B : Type} (m : result A) (k : A -> result B) : result B :=
  match m with
  | Ok a => k a
  | Raise e => Raise e
  end.

Notation "x <- e ;; k" := (bind e (fun x => k))
  (at level 61, e at next level, right associativity).
Notation "e ;;; k" := (bind e (fun _ => k))
  (at level 61, right associativity).

Definition is_ok {A : Type} (m : result A) : bool :=
  match m with Ok _ => true | Raise _ => false end.

(* ================================================================== *)
(** ** Python built-ins *)

Module Py.

(** Characters are code points below 256; on these [str.isspace] holds for
    the ASCII blanks, the separators 0x1c-0x1f, NEL and NBSP. *)
Definition isspace (c : ascii) : bool :=
  let n := Z.of_N (N_of_ascii c) in
  ((9 <=? n) && (n <=? 13)) || ((28 <=? n) && (n <=? 32))
  || (n =? 133) || (n =? 160).

Definition digit_of (c : ascii) : option Z :=
  let n := Z.of_N (N_of_ascii c) in
  if (48 <=? n) && (n <=? 57) then Some (n - 48) else None.

Definition isdigit (c : ascii) : bool :=
  match digit_of c with Some _ => true | None => false end.

Definition lower (c : ascii) : ascii :=
  let n := N_of_ascii c in
  if ((65 <=? n) && (n <=? 90))%N then ascii_of_N (n + 32) else c.

Fixpoint str_lower (s : string) : string :=
  match s with
  | EmptyString => EmptyString
  | String c r => String (lower c) (str_lower r)
  end.

(** [s.find(c)]: index of the first occurrence, or -1. *)
Fixpoint find (c : ascii) (s : string) : Z :=
  match s with
  | EmptyString => -1
  | String d r =>
      if Ascii.eqb d c then 0
      else let i := find c r in if i =? -1 then -1 else i + 1
  end.

Fixpoint lstrip (p : ascii -> bool) (s : string) : string :=
  match s with
  | EmptyString => EmptyString
  | String c r => if p c then lstrip p r else s
  end.

Fixpoint rstrip (p : ascii -> bool) (s : string) : string :=
  match s with
  | EmptyString => EmptyString
  | String c r =>
      match rstrip p r with
      | EmptyString => if p c then EmptyString else String c EmptyString
      | r' => String c r'
      end
  end.

(** [s.strip()] *)
Definition strip (s : string) : string := rstrip isspace (lstrip isspace s).

(** [s.rstrip(c)] for a one-character argument. *)
Definition rstrip_char (c : ascii) (s : string) : string :=
  rstrip (Ascii.eqb c) s.

(** [s.replace(c, "")] for a one-character [c]. *)
Fixpoint remove (c : ascii) (s : string) : string :=
  match s with
  | EmptyString => EmptyString
  | String d r => if Ascii.eqb d c then remove c r else String d (remove c r)
  end.

(** [c * n] for a one-character string [c]. *)
Definition repeat_char (c : ascii) (n : Z) : string :=
  string_of_list_ascii (List.repeat c (Z.to_nat n)).

Definition len (s : string) : Z := Z.of_nat (String.length s).

(** *** [str(n)] for an integer

    The module converts only integers of a few digits (a field of at most
    62 bits, or an exponent), far below the length at which the conversion
    is refused. *)

Definition digit_char (d : Z) : ascii := ascii_of_N (Z.to_N (48 + d)).

Fixpoint digits_acc (fuel : nat) (n : Z) (acc : string) : string :=
  let acc' := String (digit_char (n mod 10)) acc in
  match fuel with
  | O => acc'
  | S f => if n / 10 =? 0 then acc' else digits_acc f (n / 10) acc'
  end.

(** Decimal digits of a non-negative integer, most significant first. *)
Definition str_nat (n : Z) : string :=
  digits_acc (Z.to_nat (Z.log2 n)) n EmptyString.

Definition str (n : Z) : string :=
  if n <? 0 then String "-" (str_nat (- n)) else str_nat n.

(** ["%+d" % n] *)
Definition str_signed (n : Z) : string :=
  if n <? 0 then String "-" (str_nat (- n)) else String "+" (str_nat n).

(** *** [int(s)] for a string, base 10

    Blanks around the number are skipped, one sign is allowed, and single
    underscores may separate digits.  The blanks of [int] are the ASCII
    blanks, NEL and NBSP: unlike [str.strip], it keeps the separators
    0x1c-0x1f, which then make the string invalid.  A string with more
    than [max_str_digits] digits (underscores not counted) is refused with
    ValueError, as every other invalid string is. *)

Definition isspace_int (c : ascii) : bool :=
  let n := Z.of_N (N_of_ascii c) in
  ((9 <=? n) && (n <=? 13)) || (n =? 32) || (n =? 133) || (n =? 160).

(** [sys.int_info.default_max_str_digits] *)
Definition max_str_digits : Z := 4300.

Fixpoint count_digits (s : string) : Z :=
  match s with
  | EmptyString => 0
  | String c r => (if isdigit c then 1 else 0) + count_digits r
  end.

Fixpoint int_digits (s : string) (acc : Z) (after_digit : bool) : option Z :=
  match s with
  | EmptyString => if after_digit then Some acc else None
  | String c r =>
      match digit_of c with
      | Some d => int_digits r (10 * acc + d) true
      | None =>
          if Ascii.eqb c "_" && after_digit then
            match r with
            | EmptyString => None
            | String c' _ => if isdigit c' then int_digits r acc false else None
            end
          else None
      end
  end.

Definition int (s : string) : result Z :=
  let s := rstrip isspace_int (lstrip isspace_int s) in
  let '(neg, body) :=
    match s with
    | String "-" r => (true, r)
    | String "+" r => (false, r)
    | _ => (false, s)
    end in
  match int_digits body 0 false with
  | Some n =>
      if max_str_digits <? count_digits body then Raise ValueError
      else Ok (if neg then - n else n)
  | None => Raise ValueError
  end.

(** *** Bytes *)

Definition byte_of_Z (z : Z) : byte :=
  match Byte.of_N (Z.to_N (z mod 256)) with
  | Some b => b
  | None => x00
  end.

Definition Z_of_byte (b : byte) : Z := Z.of_N (Byte.to_N b).

Fixpoint be_bytes (length : nat) (n : Z) : list byte :=
  match length with
  | O => []
  | S l => byte_of_Z (n / 256 ^ Z.of_nat l) :: be_bytes l n
  end.

(** [n.to_bytes(length, byteorder="big", signed=False)] *)
Definition to_bytes (n : Z) (length : nat) : result (list byte) :=
  if (n <? 0) || (256 ^ Z.of_nat length <=? n) then Raise OverflowError
  else Ok (be_bytes length n).

(** [int.from_bytes(b, byteorder="big")] *)
Definition from_bytes (b : list byte) : Z :=
  fold_left (fun acc x => acc * 256 + Z_of_byte x) b 0.

(** [b[0]] *)
Definition first_byte (b : list byte) : result Z :=
  match b with
  | [] => Raise IndexError
  | x :: _ => Ok (Z_of_byte x)
  end.

End Py.

(* ================================================================== *)
(** ** The [decimal] module

    Finite numbers keep the coefficient as the integer its digit string
    [_int] denotes ([_int] never has leading zeros), so [len(self._int)] is
    the number of decimal digits of the coefficient.  The definitions follow
    the reference implementation of the module. *)

Module decimal.

Inductive Decimal : Set :=
| Finite (sign : bool) (coeff : Z) (exp : Z)
| Infinity (sign : bool)
| NaN (sign : bool) (signaling : bool) (diag : Z).

(** The fields of a context the codec sets; rounding is ROUND_HALF_EVEN,
    clamp is 0 and the trapped signals are InvalidOperation, DivisionByZero
    and Overflow, as in the default context. *)
Record Context : Set := { prec : Z; Emax : Z; Emin : Z }.

Definition Etiny (ctx : Context) : Z := Emin ctx - prec ctx + 1.
Definition Etop (ctx : Context) : Z := Emax ctx - prec ctx + 1.

(** *** [Decimal(str)] *)

Fixpoint span_digits (s : string) : string * string :=
  match s with
  | EmptyString => (EmptyString, EmptyString)
  | String c r =>
      if Py.isdigit c then let '(d, t) := span_digits r in (String c d, t)
      else (EmptyString, s)
  end.

Fixpoint digits_value (s : string) (acc : Z) : Z :=
  match s with
  | EmptyString => acc
  | String c r =>
      match Py.digit_of c with
      | Some d => digits_value r (10 * acc + d)
      | None => acc
      end
  end.

Definition split_sign (s : string) : bool * string :=
  match s with
  | String "-" r => (true, r)
  | String "+" r => (false, r)
  | _ => (false, s)
  end.

(** The exponent part [[-+]?\d+], which must reach the end of the string. *)
Definition parse_exp (s : string) : option Z :=
  let '(neg, body) := split_sign s in
  match span_digits body with
  | (String c d, EmptyString) =>
      let n := digits_value (String c d) 0 in Some (if neg then - n else n)
  | _ => None
  end.

(** The numeric alternative of the grammar: integer part, fractional part
    and exponent. *)
Definition parse_number (s : string) : option (string * string * Z) :=
  let '(ip, r1) := span_digits s in
  let '(fp, r2) :=
    match r1 with
    | String "." r => span_digits r
    | _ => (EmptyString, r1)
    end in
  match ip, fp with
  | EmptyString, EmptyString => None
  | _, _ =>
      match r2 with
      | EmptyString => Some (ip, fp, 0)
      | String c r3 =>
          if Ascii.eqb (Py.lower c) "e" then
            match parse_exp r3 with
            | Some e => Some (ip, fp, e)
            | None => None
            end
          else None
      end
  end.

Definition parse_special (sign : bool) (body : string) : option Decimal :=
  let body := Py.str_lower body in
  if String.eqb body "inf" || String.eqb body "infinity" then
    Some (Infinity sign)
  else
    let '(signal, r) :=
      match body with
      | String "s" r => (true, r)
      | _ => (false, body)
      end in
    match r with
    | String "n" (String "a" (String "n" d)) =>
        match span_digits d with
        | (_, EmptyString) => Some (NaN sign signal (digits_value d 0))
        | _ => None
        end
    | _ => None
    end.

(** [len(self._int)], the number of digits of a coefficient. *)
Definition ndigits (coeff : Z) : Z := Py.len (Py.str_nat coeff).

(** The limits of the interpreter's decimal numbers: at most [MAX_PREC]
    digits, an adjusted exponent of at most [MAX_EMAX], and an exponent of
    at least [MIN_EMIN - (MAX_PREC - 1)]. *)
Definition MAX_PREC : Z := 999999999999999999.
Definition MAX_EMAX : Z := 999999999999999999.
Definition MIN_EMIN : Z := -999999999999999999.
Definition MIN_ETINY : Z := MIN_EMIN - (MAX_PREC - 1).

(** Whether a coefficient and an exponent are a number as they stand,
    with no digit lost and no exponent clamped. *)
Definition representable (coeff exp : Z) : bool :=
  (ndigits coeff <=? MAX_PREC)
  && (exp + ndigits coeff - 1 <=? MAX_EMAX)
  && (MIN_ETINY <=? exp).

(** [Decimal(value)] for a string.  The conversion is exact and
    independent of the context the module installs: a string outside the
    grammar, or one whose number is outside the limits above, signals an
    InvalidOperation, which is trapped. *)
Definition of_str (value : string) : result Decimal :=
  let '(sign, body) := split_sign (Py.remove "_" (Py.strip value)) in
  match parse_number body with
  | Some (intpart, fracpart, exp) =>
      let coeff := digits_value (intpart ++ fracpart) 0 in
      let exp := exp - Py.len fracpart in
      if (Py.len fracpart <=? MAX_PREC) && representable coeff exp
      then Ok (Finite sign coeff exp)
      else Raise DecimalInvalidOperation
  | None =>
      match parse_special sign body with
      | Some (NaN s g p) =>
          if Py.len (Py.str_nat p) <=? MAX_PREC then Ok (NaN s g p)
          else Raise DecimalInvalidOperation
      | Some d => Ok d
      | None => Raise DecimalInvalidOperation
      end
  end.

(** [Decimal(n)] for an integer. *)
Definition of_int (n : Z) : Decimal := Finite (n <? 0) (Z.abs n) 0.

(** *** Queries *)

Definition is_zero (d : Decimal) : bool :=
  match d with
  | Finite _ coeff _ => coeff =? 0
  | _ => false
  end.

(** [as_tuple().exponent] is an integer for finite numbers and one of the
    strings 'F', 'n', 'N' otherwise. *)
Inductive exponent_t : Set :=
| ExpInt (e : Z)
| ExpStr (s : string).

Definition exponent (d : Decimal) : exponent_t :=
  match d with
  | Finite _ _ e => ExpInt e
  | Infinity _ => ExpStr "F"
  | NaN _ false _ => ExpStr "n"
  | NaN _ true _ => ExpStr "N"
  end.

Definition adjusted (coeff exp : Z) : Z := exp + ndigits coeff - 1.

(** *** Rounding to the context *)

(** [_round_half_even(self, prec)] on a coefficient with [k] digits to drop,
    [k >= 1]: 1 to round up, 0 when exact, -1 to round down. *)
Definition round_half_even (coeff k : Z) : Z :=
  let kept := coeff / 10 ^ k in
  let rest := coeff mod 10 ^ k in
  if (rest =? 5 * 10 ^ (k - 1)) && Z.even kept then -1
  else if 5 * 10 ^ (k - 1) <=? rest then 1
  else if rest =? 0 then 0
  else -1.

(** [_fix]: round a finite result to the precision and exponent range. *)
Definition fix_ (ctx : Context) (sign : bool) (coeff exp : Z)
  : result Decimal :=
  if coeff =? 0 then
    Ok (Finite sign 0 (Z.min (Z.max exp (Etiny ctx)) (Emax ctx)))
  else
    let exp_min := ndigits coeff + exp - prec ctx in
    if exp_min >? Etop ctx then Raise DecimalOverflow
    else
      let exp_min := if exp_min <? Etiny ctx then Etiny ctx else exp_min in
      if exp <? exp_min then
        let digits := ndigits coeff + exp - exp_min in
        let '(coeff, exp, digits) :=
          if digits <? 0 then (1, exp_min - 1, 0) else (coeff, exp, digits) in
        let k := ndigits coeff - digits in
        let changed := round_half_even coeff k in
        let kept := coeff / 10 ^ k in
        let '(kept, exp_min) :=
          if changed >? 0 then
            if ndigits (kept + 1) >? prec ctx
            then ((kept + 1) / 10, exp_min + 1)
            else (kept + 1, exp_min)
          else (kept, exp_min) in
        if exp_min >? Etop ctx then Raise DecimalOverflow
        else Ok (Finite sign kept exp_min)
      else Ok (Finite sign coeff exp).

(** [_check_nans]: a signaling NaN is an InvalidOperation; a quiet one is
    the result, with its payload cut to the precision. *)
Definition check_nans (ctx : Context) (a b : Decimal)
  : result (option Decimal) :=
  match a, b with
  | NaN _ true _, _ => Raise DecimalInvalidOperation
  | _, NaN _ true _ => Raise DecimalInvalidOperation
  | NaN s _ p, _ => Ok (Some (NaN s false (p mod 10 ^ prec ctx)))
  | _, NaN s _ p => Ok (Some (NaN s false (p mod 10 ^ prec ctx)))
  | _, _ => Ok None
  end.

Definition sign_of (d : Decimal) : bool :=
  match d with
  | Finite s _ _ => s
  | Infinity s => s
  | NaN s _ _ => s
  end.

(** [a * b] *)
Definition mul (ctx : Context) (a b : Decimal) : result Decimal :=
  let resultsign := xorb (sign_of a) (sign_of b) in
  match a, b with
  | Finite _ ca ea, Finite _ cb eb => fix_ ctx resultsign (ca * cb) (ea + eb)
  | _, _ =>
      n <- check_nans ctx a b ;;
      match n with
      | Some r => Ok r
      | None =>
          if is_zero a || is_zero b then Raise DecimalInvalidOperation
          else Ok (Infinity resultsign)
      end
  end.

(** *** Comparison *)

Definition isinfinity (d : Decimal) : Z :=
  match d with
  | Infinity false => 1
  | Infinity true => -1
  | _ => 0
  end.

Definition signum (s : bool) : Z := if s then -1 else 1.

(** [_cmp] on two numbers that are not NaN. *)
Definition cmp (a b : Decimal) : Z :=
  match a, b with
  | Finite sa ca ea, Finite sb cb eb =>
      if ca =? 0 then (if cb =? 0 then 0 else - signum sb)
      else if cb =? 0 then signum sa
      else if negb sb && sa then -1
      else if negb sa && sb then 1
      else
        let aa := adjusted ca ea in
        let ab := adjusted cb eb in
        if aa =? ab then
          let pa := ca * 10 ^ Z.max 0 (ea - eb) in
          let pb := cb * 10 ^ Z.max 0 (eb - ea) in
          if pa =? pb then 0
          else if pa <? pb then - signum sa
          else signum sa
        else if aa >? ab then signum sa
        else - signum sa
  | _, _ =>
      let ia := isinfinity a in
      let ib := isinfinity b in
      if ia =? ib then 0 else if ia <? ib then -1 else 1
  end.

(** [a.compare(b)]: a Decimal, NaN when an operand is. *)
Definition compare (ctx : Context) (a b : Decimal) : result Decimal :=
  n <- check_nans ctx a b ;;
  match n with
  | Some r => Ok r
  | None => Ok (of_int (cmp a b))
  end.

(** [d == n] for an integer [n]. *)
Definition eq_int (d : Decimal) (n : Z) : result bool :=
  match d with
  | NaN _ true _ => Raise DecimalInvalidOperation
  | NaN _ false _ => Ok false
  | _ => Ok (cmp d (of_int n) =? 0)
  end.

(** *** Conversion to strings *)

Definition sign_str (s : bool) : string := if s then "-" else "".

Definition slice_to (n : Z) (s : string) : string :=
  substring 0 (Z.to_nat n) s.

Definition slice_from (n : Z) (s : string) : string :=
  substring (Z.to_nat n) (String.length s - Z.to_nat n) s.

Definition diag_str (p : Z) : string :=
  if p =? 0 then "" else Py.str_nat p.

(** [str(d)]: scientific notation unless the exponent is at most 0 and the
    number is not too small. *)
Definition to_str (d : Decimal) : string :=
  match d with
  | Infinity s => sign_str s ++ "Infinity"
  | NaN s false p => sign_str s ++ "NaN" ++ diag_str p
  | NaN s true p => sign_str s ++ "sNaN" ++ diag_str p
  | Finite s coeff exp =>
      let int_ := Py.str_nat coeff in
      let leftdigits := exp + Py.len int_ in
      let dotplace :=
        if (exp <=? 0) && (leftdigits >? -6) then leftdigits else 1 in
      let '(intpart, fracpart) :=
        if dotplace <=? 0 then
          ("0", "." ++ Py.repeat_char "0" (- dotplace) ++ int_)
        else if dotplace >=? Py.len int_ then
          (int_ ++ Py.repeat_char "0" (dotplace - Py.len int_), "")
        else (slice_to dotplace int_, "." ++ slice_from dotplace int_) in
      let e :=
        if leftdigits =? dotplace then ""
        else "E" ++ Py.str_signed (leftdigits - dotplace) in
      sign_str s ++ intpart ++ fracpart ++ e
  end.

(** ["{:f}".format(d)]: positional notation, never an exponent. *)
Definition format_f (d : Decimal) : string :=
  match d with
  | Finite s coeff exp =>
      let exp := if (coeff =? 0) && (exp >? 0) then 0 else exp in
      let int_ := Py.str_nat coeff in
      let dotplace := exp + Py.len int_ in
      let '(intpart, fracpart) :=
        if dotplace <? 0 then
          ("0", Py.repeat_char "0" (- dotplace) ++ int_)
        else if dotplace >? Py.len int_ then
          (int_ ++ Py.repeat_char "0" (dotplace - Py.len int_), "")
        else
          (match slice_to dotplace int_ with
           | EmptyString => "0"
           | i => i
           end, slice_from dotplace int_) in
      sign_str s ++ intpart ++
      match fracpart with
      | EmptyString => ""
      | _ => "." ++ fracpart
      end
  | _ => sign_str (sign_of d) ++ to_str
           (match d with
            | Infinity _ => Infinity false
            | NaN _ g p => NaN false g p
            | _ => d
            end)
  end.

End decimal.

(* ================================================================== *)
(** ** [xrpl.binary_codec.types.amount] *)

Module amount.
Import decimal.

(** Constants for validating amounts. *)
Definition _MIN_IOU_EXPONENT : Z := -96.
Definition _MAX_IOU_EXPONENT : Z := 80.
Definition _MAX_IOU_PRECISION : Z := 16.
Definition _MIN_MANTISSA : Z := 10 ^ 15.
Definition _MAX_MANTISSA : Z := 10 ^ 16 - 1.

(** The context installed by [setcontext] when the module is loaded. *)
Definition context : Context :=
  {| prec := _MAX_IOU_PRECISION;
     Emax := _MAX_IOU_EXPONENT;
     Emin := _MIN_IOU_EXPONENT |}.

(** [Decimal("1e17")] and [Decimal("1e-6")] *)
Definition _MAX_DROPS : Decimal := Finite false 1 17.
Definition _MIN_XRP : Decimal := Finite false 1 (-6).

Definition _NOT_XRP_BIT_MASK : Z := 0x80.
Definition _POS_SIGN_BIT_MASK : Z := 0x4000000000000000.
Definition _ZERO_CURRENCY_AMOUNT_HEX : Z := 0x8000000000000000.
Definition _NATIVE_AMOUNT_BYTE_LENGTH : nat := 8.
Definition _CURRENCY_AMOUNT_BYTE_LENGTH : nat := 48.

(** Despite its name, true when the string has NO decimal point. *)
Definition _contains_decimal (string_ : string) : bool :=
  Py.find "." string_ =? -1.

(** A dict with string keys and values, as the list of its items (keys
    pairwise distinct). *)
Definition dict : Set := list (string * string).

Definition keys (d : dict) : list string := map fst d.

Definition mem (k : string) (l : list string) : bool :=
  existsb (String.eqb k) l.

Definition set_eqb (a b : list string) : bool :=
  forallb (fun k => mem k b) a && forallb (fun k => mem k a) b.

Fixpoint getitem (d : dict) (k : string) : result string :=
  match d with
  | [] => Raise KeyError
  | (k', v) :: r => if String.eqb k k' then Ok v else getitem r k
  end.

Definition _is_valid_issued_currency_amount (value : dict) : bool :=
  if negb (Nat.eqb (List.length (keys value)) 3) then false
  else
    let expected_keys := ["currency"; "issuer"; "value"] in
    if set_eqb (keys value) expected_keys then true else false.

Definition verify_xrp_value (xrp_value : string) : result unit :=
  (* Contains no decimal point *)
  if negb (_contains_decimal xrp_value) then Raise XRPLBinaryCodecException
  else
    (* Within valid range *)
    decimal <- of_str xrp_value ;;
    (* Zero is less than both the min and max XRP amounts but is valid. *)
    if is_zero decimal then Ok tt
    else
      c <- compare context decimal _MIN_XRP ;;
      below <- eq_int c (-1) ;;
      out <- (if below then Ok true
              else c' <- compare context decimal _MAX_DROPS ;; eq_int c' 1) ;;
      if out then Raise XRPLBinaryCodecException else Ok tt.

(** [exponent > n] and [exponent < n]: ordering a string against an integer
    is a TypeError. *)
Definition exponent_gtb (e : exponent_t) (n : Z) : result bool :=
  match e with
  | ExpInt z => Ok (z >? n)
  | ExpStr _ => Raise TypeError
  end.

Definition exponent_ltb (e : exponent_t) (n : Z) : result bool :=
  match e with
  | ExpInt z => Ok (z <? n)
  | ExpStr _ => Raise TypeError
  end.

(** [int(e)] for an [as_tuple().exponent]. *)
Definition int_of_exponent (e : exponent_t) : result Z :=
  match e with
  | ExpInt z => Ok z
  | ExpStr s => Py.int s
  end.

Definition _verify_no_decimal (decimal : Decimal) : result unit :=
  let actual_exponent := decimal.exponent decimal in
  e <- int_of_exponent actual_exponent ;;
  exponent <- of_str ("1e" ++ Py.str (- (e - 15))) ;;
  (* str(Decimal) uses sci notation by default... get around w/ string
     format *)
  product <- mul context decimal exponent ;;
  let int_number_string := format_f product in
  if negb (_contains_decimal int_number_string)
  then Raise XRPLBinaryCodecException
  else Ok tt.

Definition verify_iou_value (issued_currency_value : Decimal) : result unit :=
  if is_zero issued_currency_value then Ok tt
  else
    let precision := prec context in
    let exponent := decimal.exponent issued_currency_value in
    out <- (if precision >? _MAX_IOU_PRECISION then Ok true
            else
              above <- exponent_gtb exponent _MAX_IOU_EXPONENT ;;
              if above then Ok true
              else exponent_ltb exponent _MIN_IOU_EXPONENT) ;;
    if out then Raise XRPLBinaryCodecException
    else _verify_no_decimal issued_currency_value.

(** [as_tuple()]: sign, the digits (here joined into a string, as the
    caller does at once) and the exponent. *)
Definition as_tuple (d : Decimal) : Z * string * exponent_t :=
  let sign := if sign_of d then 1 else 0 in
  match d with
  | Finite _ coeff _ => (sign, Py.str_nat coeff, exponent d)
  | Infinity _ => (sign, "0", exponent d)
  | NaN _ _ p => (sign, diag_str p, exponent d)
  end.

(** First loop of the canonicalization:
    [while mantissa < _MIN_MANTISSA and exp > _MIN_IOU_EXPONENT].
    It runs at most [exp - _MIN_IOU_EXPONENT] times. *)
Fixpoint upscale_loop (fuel : nat) (mantissa exp : Z) : Z * Z :=
  match fuel with
  | O => (mantissa, exp)
  | S f =>
      if (mantissa <? _MIN_MANTISSA) && (exp >? _MIN_IOU_EXPONENT)
      then upscale_loop f (mantissa * 10) (exp - 1)
      else (mantissa, exp)
  end.

Definition upscale (mantissa exp : Z) : Z * Z :=
  upscale_loop (Z.to_nat (exp - _MIN_IOU_EXPONENT)) mantissa exp.

(** Second loop: [while mantissa > _MAX_MANTISSA], raising when the
    exponent cannot grow.  Every turn removes a digit, so the binary length
    of the mantissa bounds the number of turns. *)
Fixpoint downscale_loop (fuel : nat) (mantissa exp : Z) : result (Z * Z) :=
  match fuel with
  | O => Ok (mantissa, exp)
  | S f =>
      if mantissa >? _MAX_MANTISSA then
        if exp >=? _MAX_IOU_EXPONENT then Raise XRPLBinaryCodecException
        else downscale_loop f (mantissa / 10) (exp + 1)
      else Ok (mantissa, exp)
  end.

Definition downscale (mantissa exp : Z) : result (Z * Z) :=
  downscale_loop (Z.to_nat (Z.log2 mantissa)) mantissa exp.

(** The tail of [_serialize_issued_currency_value], after the loops. *)
Definition pack (sign mantissa exp : Z) : result (list byte) :=
  (if (exp <? _MIN_IOU_EXPONENT) || (mantissa <? _MIN_MANTISSA) then
     (* Round to zero: the bytes are built and dropped *)
     Py.to_bytes _ZERO_CURRENCY_AMOUNT_HEX 8 ;;; Ok tt
   else Ok tt) ;;;
  if (exp >? _MAX_IOU_EXPONENT) || (mantissa >? _MAX_MANTISSA) then
    Raise XRPLBinaryCodecException
  else
    (* Convert to bytes *)
    let serial := _ZERO_CURRENCY_AMOUNT_HEX in
    let serial :=
      if sign =? 0 then Z.lor serial _POS_SIGN_BIT_MASK else serial in
    let serial := Z.lor serial (Z.shiftl (exp + 97) 54) in
    let serial := Z.lor serial mantissa in
    Py.to_bytes serial 8.

Definition _serialize_issued_currency_value (value : string)
  : result (list byte) :=
  decimal_value <- of_str value ;;
  verify_iou_value decimal_value ;;;
  if is_zero decimal_value then Py.to_bytes _ZERO_CURRENCY_AMOUNT_HEX 8
  else
    (* Convert components to integers *)
    let '(sign, digits, exp) := as_tuple decimal_value in
    mantissa <- Py.int digits ;;
    match exp with
    | ExpStr _ => Raise TypeError
    | ExpInt exp =>
        (* Canonicalize to expected range *)
        let '(mantissa, exp) := upscale mantissa exp in
        st <- downscale mantissa exp ;;
        let '(mantissa, exp) := st in
        pack sign mantissa exp
    end.

Definition _serialize_xrp_amount (value : string) : result (list byte) :=
  verify_xrp_value value ;;;
  (* set the "is positive" bit *)
  n <- Py.int value ;;
  let value_with_pos_bit := Z.lor n _POS_SIGN_BIT_MASK in
  Py.to_bytes value_with_pos_bit 8.

(** *** Collaborators *)

(** Modelled from the spec: the byte cursor [BinaryParser], which is not
    part of the sources at hand.  [read(n)] returns the next [n] bytes and
    advances; it fails when fewer than [n] bytes remain.  [peek()] returns
    the next byte without advancing. *)
Definition BinaryParser : Set := list byte.

Definition read (n : nat) (parser : BinaryParser)
  : result (list byte * BinaryParser) :=
  if Nat.ltb (List.length parser) n then Raise BufferUnderrun
  else Ok (firstn n parser, skipn n parser).

Definition peek (parser : BinaryParser) : result Z :=
  match parser with
  | [] => Raise BufferUnderrun
  | b :: _ => Ok (Py.Z_of_byte b)
  end.

(** The peer codecs for currency codes and account identifiers are opaque:
    each turns a display string into 20 bytes and 20 bytes read from a
    cursor back into a display string. *)
Record PeerCodec : Type := {
  from_value_to_bytes : string -> result (list byte);
  from_parser_to_json : list byte -> result string
}.

(** *** The [Amount] class *)

(** A [SerializedType] wraps its bytes; [to_bytes()] returns them. *)
Record Amount : Set := { buffer : list byte }.

Definition to_bytes (self : Amount) : list byte := buffer self.

Inductive value_t : Set :=
| VStr (s : string)
| VDict (d : dict).

Inductive json : Set :=
| JStr (s : string)
| JDict (items : list (string * string)).

Definition is_native (self : Amount) : result bool :=
  (* 1st bit in 1st byte is set to 0 for native XRP *)
  b <- Py.first_byte (buffer self) ;;
  Ok (Z.land b 0x80 =? 0).

Definition is_positive (self : Amount) : result bool :=
  b <- Py.first_byte (to_bytes self) ;;
  Ok (Z.land b 0x40 >? 0).

(** The "value" entry built by [to_json] from the 8-byte value field. *)
Definition to_json_value (value_bytes : list byte) : result string :=
  b1 <- Py.first_byte value_bytes ;;
  b2 <- Py.first_byte (skipn 1 value_bytes) ;;
  let is_positive := Z.land b1 0x40 in
  let sign := if is_positive =? 0 then "-" else "" in
  let exponent :=
    Z.shiftl (Z.land b1 0x3F) 2 + Z.shiftr (Z.land b2 0xFF) 6 - 97 in
  (* hex(b2 & 0x3F) + value_bytes[2:].hex(), read back in base 16 *)
  let tail := skipn 2 value_bytes in
  let int_mantissa :=
    Z.land b2 0x3F * 256 ^ Z.of_nat (List.length tail) + Py.from_bytes tail in
  m <- of_str (sign ++ Py.str int_mantissa) ;;
  e <- of_str ("1e" ++ Py.str exponent) ;;
  value <- mul context m e ;;
  verify_iou_value value ;;;
  if is_zero value then Ok "0"
  else Ok (Py.rstrip_char "." (Py.rstrip_char "0" (to_str value))).

Section Codec.

Variables Currency AccountID : PeerCodec.

Definition _serialize_issued_currency_amount (value : dict)
  : result (list byte) :=
  amount_string <- getitem value "value" ;;
  amount_bytes <- _serialize_issued_currency_value amount_string ;;
  c <- getitem value "currency" ;;
  currency_bytes <- from_value_to_bytes Currency c ;;
  i <- getitem value "issuer" ;;
  issuer_bytes <- from_value_to_bytes AccountID i ;;
  Ok (amount_bytes ++ currency_bytes ++ issuer_bytes)%list.

Definition from_value (value : value_t) : result Amount :=
  match value with
  | VStr s =>
      b <- _serialize_xrp_amount s ;;
      Ok {| buffer := b |}
  | VDict d =>
      if _is_valid_issued_currency_amount d then
        b <- _serialize_issued_currency_amount d ;;
        Ok {| buffer := b |}
      else Raise XRPLBinaryCodecException
  end.

Definition from_parser (parser : BinaryParser)
  : result (Amount * BinaryParser) :=
  b <- peek parser ;;
  let not_xrp := Z.land b 0x80 in
  let num_bytes :=
    if not_xrp =? 0 then _NATIVE_AMOUNT_BYTE_LENGTH
    else _CURRENCY_AMOUNT_BYTE_LENGTH in
  r <- read num_bytes parser ;;
  Ok ({| buffer := fst r |}, snd r).

Definition to_json (self : Amount) : result json :=
  native <- is_native self ;;
  if native then
    positive <- is_positive self ;;
    let sign := if positive then "" else "-" in
    let masked_bytes :=
      Z.land (Py.from_bytes (buffer self)) 0x3FFFFFFFFFFFFFFF in
    Ok (JStr (sign ++ Py.str masked_bytes))
  else
    r <- read 8 (to_bytes self) ;;
    let '(value_bytes, parser) := r in
    r <- read 20 parser ;;
    let '(currency_bytes, parser) := r in
    r <- read 20 parser ;;
    let '(issuer_bytes, parser) := r in
    value_str <- to_json_value value_bytes ;;
    currency <- from_parser_to_json Currency currency_bytes ;;
    issuer <- from_parser_to_json AccountID issuer_bytes ;;
    Ok (JDict [("value", value_str);
               ("currency", currency);
               ("issuer", issuer)]).

End Codec.

End amount.

(* ================================================================== *)
(** ** Vocabulary of the statements *)

Fixpoint all_digits (s : string) : bool :=
  match s with
  | EmptyString => true
  | String c r => Py.isdigit c && all_digits r
  end.

(** A non-empty string of the characters 0-9. *)
Definition digit_string (s : string) : bool :=
  match s with
  | EmptyString => false
  | _ => all_digits s
  end.

(** A peer codec that accepts nothing, for statements about amounts in
    which the currency and issuer play no part. *)
Definition no_codec : amount.PeerCodec :=
  {| amount.from_value_to_bytes := fun _ => Raise ValueError;
     amount.from_parser_to_json := fun _ => Raise ValueError |}.

(** The states the second canonicalization loop goes through: from
    [(m, e)] it moves on to [(m / 10, e + 1)] as long as the mantissa is
    above the window and the exponent can still grow. *)
Inductive downscale_visits : Z -> Z -> Z -> Z -> Prop :=
| visits_here m e : downscale_visits m e m e
| visits_next m e m' e' :
    m > amount._MAX_MANTISSA -> e < amount._MAX_IOU_EXPONENT ->
    downscale_visits (m / 10) (e + 1) m' e' ->
    downscale_visits m e m' e'.

(** The 64-bit value field packed from a sign, a mantissa and an
    exponent. *)
Definition value_field (negative : bool) (mantissa exp : Z) : Z :=
  Z.lor (Z.lor (if negative then amount._ZERO_CURRENCY_AMOUNT_HEX
                else Z.lor amount._ZERO_CURRENCY_AMOUNT_HEX
                           amount._POS_SIGN_BIT_MASK)
               (Z.shiftl (exp + 97) 54))
        mantissa.

(** The zero encoding: only bit 63 set. *)
Definition zero_field : list byte :=
  [x80; x00; x00; x00; x00; x00; x00; x00].

(** Characters that are neither blank, nor an underscore, nor a point. *)
Definition plain_char (c : ascii) : bool :=
  negb (Py.isspace c) && negb (Ascii.eqb c "_") && negb (Ascii.eqb c ".").

Fixpoint plain (s : string) : bool :=
  match s with
  | EmptyString => true
  | String c r => plain_char c && plain r
  end.

(** Strings with no blank character in them. *)
Fixpoint no_blank (s : string) : bool :=
  match s with
  | EmptyString => true
  | String c r => negb (Py.isspace c) && no_blank r
  end.


(** The three keys of an issued-currency amount. *)
Definition expected_keys : list string := ["currency"; "issuer"; "value"].

(** A peer codec for examples: it turns every display string into twenty
    zero bytes and shows twenty bytes as the empty string. *)
Definition blank_codec : amount.PeerCodec :=
  {| amount.from_value_to_bytes := fun _ => Ok (List.repeat x00 20);
     amount.from_parser_to_json := fun _ => Ok EmptyString |}.

(** Exact comparison of two numbers given by coefficient and decimal
    exponent: [c1 * 10^e1 <= c2 * 10^e2], both sides scaled to integers. *)
Definition scaled_le (c1 e1 c2 e2 : Z) : Prop :=
  c1 * 10 ^ (e1 - Z.min e1 e2) <= c2 * 10 ^ (e2 - Z.min e1 e2).

(* ================================================================== *)
(** * Properties *)

(** ** Facts about the built-ins *)

Section PyFacts.
Import Py.

Lemma isdigit_digit_of c :
  isdigit c = true -> exists d, digit_of c = Some d /\ 0 <= d < 10.
Proof.
  unfold isdigit, digit_of.
  destruct ((48 <=? _) && (_ <=? 57)) eqn:E; [|discriminate].
  intros _. eexists; split; [reflexivity|].
  apply andb_true_iff in E as [E1 E2]. lia.
Qed.

Lemma isdigit_not_space c : isdigit c = true -> isspace c = false.
Proof.
  unfold isdigit, digit_of, isspace.
  repeat match goal with
         | |- context [?a <=? ?b] => destruct (Z.leb_spec a b)
         | |- context [?a =? ?b] => destruct (Z.eqb_spec a b)
         end; cbn; intros; try reflexivity; try discriminate; lia.
Qed.

Lemma isdigit_neq c d : isdigit c = true -> isdigit d = false -> Ascii.eqb c d = false.
Proof.
  intros Hc Hd. destruct (Ascii.eqb c d) eqn:E; [|reflexivity].
  apply Ascii.eqb_eq in E. congruence.
Qed.

Lemma digit_of_digit_char d : 0 <= d < 10 -> digit_of (digit_char d) = Some d.
Proof.
  intros H.
  assert (d = 0 \/ d = 1 \/ d = 2 \/ d = 3 \/ d = 4 \/ d = 5 \/ d = 6
          \/ d = 7 \/ d = 8 \/ d = 9) as C by lia.
  repeat (destruct C as [-> | C]; [reflexivity|]). subst; reflexivity.
Qed.

Lemma isdigit_digit_char d : 0 <= d < 10 -> isdigit (digit_char d) = true.
Proof.
  intros H. unfold isdigit. now rewrite digit_of_digit_char.
Qed.

Lemma rstrip_all_digits s : all_digits s = true -> rstrip isspace s = s.
Proof.
  induction s as [|c r IH]; [reflexivity|]. cbn.
  intros [Hc Hr]%andb_true_iff. rewrite (IH Hr).
  destruct r; [|reflexivity]. now rewrite isdigit_not_space.
Qed.

Lemma strip_all_digits s : all_digits s = true -> strip s = s.
Proof.
  intros H. unfold strip.
  replace (lstrip isspace s) with s; [now apply rstrip_all_digits|].
  destruct s as [|c r]; [reflexivity|]. cbn in *.
  apply andb_true_iff in H as [Hc _]. now rewrite isdigit_not_space.
Qed.

Lemma remove_all_digits c s :
  isdigit c = false -> all_digits s = true -> remove c s = s.
Proof.
  intros Hc. induction s as [|d r IH]; [reflexivity|]. cbn.
  intros [Hd Hr]%andb_true_iff.
  rewrite (isdigit_neq d c Hd Hc), (IH Hr). reflexivity.
Qed.

Lemma find_all_digits c s :
  isdigit c = false -> all_digits s = true -> find c s = -1.
Proof.
  intros Hc. induction s as [|d r IH]; [reflexivity|]. cbn.
  intros [Hd Hr]%andb_true_iff.
  rewrite (isdigit_neq d c Hd Hc), (IH Hr). reflexivity.
Qed.

(** On digits only, [int] reads the plain positional value. *)
Lemma int_digits_all_digits s :
  all_digits s = true ->
  forall acc b, (s <> EmptyString \/ b = true) ->
  int_digits s acc b = Some (decimal.digits_value s acc).
Proof.
  induction s as [|c r IH];
    cbn [all_digits int_digits decimal.digits_value]; intros H acc b Hb.
  - destruct Hb as [Hb | ->]; [congruence | reflexivity].
  - apply andb_true_iff in H as [Hc Hr].
    destruct (isdigit_digit_of c Hc) as (d & -> & _).
    apply IH; auto.
Qed.

Lemma digits_value_nonneg s : forall acc, 0 <= acc -> 0 <= decimal.digits_value s acc.
Proof.
  induction s as [|c r IH]; cbn [decimal.digits_value]; intros acc H;
    [assumption|].
  unfold digit_of.
  destruct ((48 <=? _) && (_ <=? 57)) eqn:E; [|assumption].
  apply andb_true_iff in E as [E1 E2]. apply IH. lia.
Qed.

Lemma isdigit_not_space_int c : isdigit c = true -> isspace_int c = false.
Proof.
  unfold isdigit, digit_of, isspace_int.
  repeat match goal with
         | |- context [?a <=? ?b] => destruct (Z.leb_spec a b)
         | |- context [?a =? ?b] => destruct (Z.eqb_spec a b)
         end; cbn; intros; try reflexivity; try discriminate; lia.
Qed.

Lemma rstrip_int_all_digits s :
  all_digits s = true -> rstrip isspace_int s = s.
Proof.
  induction s as [|c r IH]; [reflexivity|]. cbn.
  intros [Hc Hr]%andb_true_iff. rewrite (IH Hr).
  destruct r; [|reflexivity]. now rewrite isdigit_not_space_int.
Qed.

Lemma strip_int_all_digits s :
  all_digits s = true -> rstrip isspace_int (lstrip isspace_int s) = s.
Proof.
  intros H.
  replace (lstrip isspace_int s) with s; [now apply rstrip_int_all_digits|].
  destruct s as [|c r]; [reflexivity|]. cbn in *.
  apply andb_true_iff in H as [Hc _]. now rewrite isdigit_not_space_int.
Qed.

Lemma count_digits_all_digits s :
  all_digits s = true -> count_digits s = len s.
Proof.
  unfold len. induction s as [|c r IH]; [reflexivity|].
  cbn [all_digits count_digits String.length].
  intros [Hc Hr]%andb_true_iff. rewrite Hc, (IH Hr). lia.
Qed.

(** [int] on a digit string: its positional value, unless the string has
    more than 4300 digits. *)
Lemma int_digit_string_cases s :
  digit_string s = true ->
  int s = if max_str_digits <? len s then Raise ValueError
          else Ok (decimal.digits_value s 0).
Proof.
  intros H.
  assert (Hd : all_digits s = true) by (destruct s; [discriminate | exact H]).
  unfold int. rewrite (strip_int_all_digits s Hd).
  destruct s as [|c r]; [discriminate|].
  assert (Hc : isdigit c = true) by (cbn in Hd; now apply andb_true_iff in Hd).
  assert (E : (let '(neg, body) :=
             match String c r with
             | String "-" r0 => (true, r0)
             | String "+" r0 => (false, r0)
             | _ => (false, String c r)
             end in
           match int_digits body 0 false with
           | Some n =>
               if max_str_digits <? count_digits body then Raise ValueError
               else Ok (if neg then - n else n)
           | None => Raise ValueError
           end) = match int_digits (String c r) 0 false with
           | Some n =>
               if max_str_digits <? count_digits (String c r)
               then Raise ValueError else Ok n
           | None => Raise ValueError
           end).
  { destruct c as [[] [] [] [] [] [] [] []]; try reflexivity; discriminate Hc. }
  rewrite E, int_digits_all_digits, (count_digits_all_digits _ Hd);
    auto; left; discriminate.
Qed.

(** A digit string of at most 4300 digits is read by [int] as its
    positional value. *)
Lemma int_digit_string s :
  digit_string s = true -> len s <= max_str_digits ->
  int s = Ok (decimal.digits_value s 0).
Proof.
  intros H Hlen. rewrite (int_digit_string_cases s H).
  destruct (Z.ltb_spec max_str_digits (len s)); [lia | reflexivity].
Qed.

(** [str] of a non-negative integer: digits only, and [int] reads the
    integer back. *)
Lemma digits_acc_all_digits fuel :
  forall n acc, 0 <= n -> all_digits acc = true ->
  all_digits (digits_acc fuel n acc) = true.
Proof.
  induction fuel as [|f IH]; cbn; intros n acc Hn Hacc.
  - rewrite isdigit_digit_char, Hacc; [reflexivity|].
    apply Z.mod_pos_bound; lia.
  - assert (Hd : isdigit (digit_char (n mod 10)) = true)
      by (apply isdigit_digit_char, Z.mod_pos_bound; lia).
    destruct (n / 10 =? 0).
    + cbn. now rewrite Hd, Hacc.
    + apply IH; [apply Z.div_pos; lia|]. cbn. now rewrite Hd, Hacc.
Qed.

Lemma digits_acc_nonempty fuel n acc : digits_acc fuel n acc <> EmptyString.
Proof.
  revert n acc. induction fuel as [|f IH]; cbn; intros n acc; [discriminate|].
  destruct (n / 10 =? 0); [discriminate | apply IH].
Qed.

Lemma digits_value_digits_acc fuel :
  forall n acc, 0 <= n < 2 ^ (Z.of_nat fuel + 1) ->
  decimal.digits_value (digits_acc fuel n acc) 0 = decimal.digits_value acc n.
Proof.
  induction fuel as [|f IH]; intros n acc Hn.
  - cbn [digits_acc decimal.digits_value]. change (2 ^ (Z.of_nat 0 + 1)) with 2 in Hn.
    rewrite digit_of_digit_char by (apply Z.mod_pos_bound; lia).
    rewrite Z.mod_small by lia. reflexivity.
  - cbn [digits_acc].
    assert (Hm : 0 <= n mod 10 < 10) by (apply Z.mod_pos_bound; lia).
    pose proof (Z.div_mod n 10 ltac:(lia)) as Hdm.
    destruct (n / 10 =? 0) eqn:E.
    + apply Z.eqb_eq in E. cbn [decimal.digits_value].
      rewrite digit_of_digit_char by assumption.
      f_equal. lia.
    + rewrite IH.
      * cbn [decimal.digits_value]. rewrite digit_of_digit_char by assumption.
        f_equal. lia.
      * split; [apply Z.div_pos; lia|].
        apply Z.div_lt_upper_bound; [lia|].
        replace (Z.of_nat (S f) + 1) with (Z.succ (Z.of_nat f + 1)) in Hn by lia.
        rewrite Z.pow_succ_r in Hn by lia. lia.
Qed.

Lemma log2_fuel n : 0 <= n -> n < 2 ^ (Z.of_nat (Z.to_nat (Z.log2 n)) + 1).
Proof.
  intros Hn. rewrite Z2Nat.id by apply Z.log2_nonneg.
  destruct (Z.eq_dec n 0) as [-> | Hz]; [reflexivity|].
  pose proof (Z.log2_spec n ltac:(lia)) as H.
  replace (Z.log2 n + 1) with (Z.succ (Z.log2 n)) by lia. lia.
Qed.

Lemma str_nat_digit_string n : 0 <= n -> digit_string (str_nat n) = true.
Proof.
  intros Hn. unfold digit_string, str_nat.
  pose proof (digits_acc_nonempty (Z.to_nat (Z.log2 n)) n EmptyString) as Hne.
  pose proof (digits_acc_all_digits (Z.to_nat (Z.log2 n)) n EmptyString Hn eq_refl).
  destruct (digits_acc _ n _); congruence.
Qed.

Lemma digits_value_str_nat n : 0 <= n -> decimal.digits_value (str_nat n) 0 = n.
Proof.
  intros Hn. unfold str_nat. rewrite digits_value_digits_acc; [reflexivity|].
  split; [assumption | now apply log2_fuel].
Qed.

(** The number of digits of a positive coefficient brackets it between
    two powers of ten. *)
Lemma digits_acc_length fuel :
  forall n acc, 0 < n < 2 ^ (Z.of_nat fuel + 1) ->
  let L := len (digits_acc fuel n acc) - len acc in
  1 <= L /\ 10 ^ (L - 1) <= n < 10 ^ L.
Proof.
  unfold len.
  induction fuel as [|f IH]; intros n acc Hn; cbn [digits_acc].
  - change (2 ^ (Z.of_nat 0 + 1)) with 2 in Hn.
    cbn [String.length]. rewrite Nat2Z.inj_succ.
    replace (Z.succ (Z.of_nat (String.length acc)) - Z.of_nat (String.length acc))
      with 1 by lia.
    cbn. lia.
  - pose proof (Z.div_mod n 10 ltac:(lia)) as Hdm.
    pose proof (Z.mod_pos_bound n 10 ltac:(lia)) as Hm.
    destruct (n / 10 =? 0) eqn:E.
    + apply Z.eqb_eq in E. cbn [String.length]. rewrite Nat2Z.inj_succ.
      replace (Z.succ (Z.of_nat (String.length acc)) - Z.of_nat (String.length acc))
        with 1 by lia.
      cbn. lia.
    + apply Z.eqb_neq in E.
      assert (Hq : 0 <= n / 10) by (apply Z.div_pos; lia).
      specialize (IH (n / 10) (String (digit_char (n mod 10)) acc)).
      cbn zeta in IH. cbn [String.length] in IH. rewrite Nat2Z.inj_succ in IH.
      destruct IH as (HL & Hlo & Hhi).
      { split; [lia|]. apply Z.div_lt_upper_bound; [lia|].
        replace (Z.of_nat (S f) + 1) with (Z.succ (Z.of_nat f + 1)) in Hn by lia.
        rewrite Z.pow_succ_r in Hn by lia. lia. }
      set (R := Z.of_nat (String.length
                  (digits_acc f (n / 10) (String (digit_char (n mod 10)) acc)))) in *.
      set (A := Z.of_nat (String.length acc)) in *.
      cbn zeta.
      replace (R - A) with (Z.succ (R - Z.succ A)) by lia.
      replace (Z.succ (R - Z.succ A) - 1) with (Z.succ (R - Z.succ A - 1)) by lia.
      rewrite !Z.pow_succ_r by lia. lia.
Qed.

Lemma ndigits_spec n :
  0 < n -> 1 <= decimal.ndigits n /\ 10 ^ (decimal.ndigits n - 1) <= n < 10 ^ decimal.ndigits n.
Proof.
  intros Hn. unfold decimal.ndigits, str_nat.
  pose proof (digits_acc_length (Z.to_nat (Z.log2 n)) n EmptyString) as H.
  cbn zeta in H. change (len "") with 0 in H. rewrite Z.sub_0_r in H.
  apply H. split; [assumption | apply log2_fuel; lia].
Qed.

Lemma pow10_lt_mono a b : 0 <= a < b -> 10 ^ a < 10 ^ b.
Proof. intros H. apply Z.pow_lt_mono_r; lia. Qed.

Lemma pow10_le_mono a b : 0 <= a <= b -> 10 ^ a <= 10 ^ b.
Proof. intros H. apply Z.pow_le_mono_r; lia. Qed.


Lemma ndigits_zero : decimal.ndigits 0 = 1.
Proof. reflexivity. Qed.

Lemma ndigits_le n k :
  0 <= n < 10 ^ k -> 1 <= k -> decimal.ndigits n <= k.
Proof.
  intros [H0 Hlt] Hk.
  destruct (Z.eq_dec n 0) as [-> | Hn]; [rewrite ndigits_zero; lia|].
  destruct (ndigits_spec n ltac:(lia)) as (HL & Hlo & _).
  destruct (Z.le_gt_cases (decimal.ndigits n) k) as [|Hgt]; [assumption|].
  assert (10 ^ k <= 10 ^ (decimal.ndigits n - 1))
    by (apply pow10_le_mono; lia).
  lia.
Qed.

(** [int] reads back what [str] wrote, for a number of at most 4300
    digits. *)
Lemma int_str_nat n :
  0 <= n -> decimal.ndigits n <= max_str_digits -> int (str_nat n) = Ok n.
Proof.
  intros Hn Hd. rewrite int_digit_string;
    [| now apply str_nat_digit_string | exact Hd].
  now rewrite digits_value_str_nat.
Qed.

End PyFacts.

(** ** Facts about bytes and bits *)

Section ByteFacts.
Import Py.

Lemma Z_of_byte_range b : 0 <= Z_of_byte b < 256.
Proof.
  unfold Z_of_byte. pose proof (Byte.to_N_bounded b). lia.
Qed.

Lemma Z_of_byte_of_Z z : Z_of_byte (byte_of_Z z) = z mod 256.
Proof.
  unfold Z_of_byte, byte_of_Z.
  pose proof (Z.mod_pos_bound z 256 ltac:(lia)) as Hm.
  destruct (Byte.of_N (Z.to_N (z mod 256))) as [b|] eqn:E.
  - apply Byte.to_of_N in E. rewrite E. lia.
  - apply Byte.of_N_None_iff in E. lia.
Qed.

Lemma from_bytes_fold l :
  forall acc,
    fold_left (fun a x => a * 256 + Z_of_byte x) l acc
    = acc * 256 ^ Z.of_nat (List.length l) + from_bytes l.
Proof.
  unfold from_bytes.
  induction l as [|b r IH]; intros acc; cbn [fold_left List.length].
  - change (256 ^ Z.of_nat 0) with 1. lia.
  - rewrite IH, (IH (0 * 256 + Z_of_byte b)).
    rewrite Nat2Z.inj_succ, Z.pow_succ_r by lia. ring.
Qed.

Lemma from_bytes_cons b r :
  from_bytes (b :: r)
  = Z_of_byte b * 256 ^ Z.of_nat (List.length r) + from_bytes r.
Proof.
  unfold from_bytes at 1. cbn [fold_left]. rewrite from_bytes_fold. ring.
Qed.

Lemma from_bytes_range l : 0 <= from_bytes l < 256 ^ Z.of_nat (List.length l).
Proof.
  induction l as [|b r IH].
  - cbn. lia.
  - rewrite from_bytes_cons. cbn [List.length].
    rewrite Nat2Z.inj_succ, Z.pow_succ_r by lia.
    pose proof (Z_of_byte_range b). nia.
Qed.

Lemma from_bytes_be_bytes len :
  forall n, from_bytes (be_bytes len n) = n mod 256 ^ Z.of_nat len.
Proof.
  induction len as [|l IH]; intros n.
  - cbn. now rewrite Z.mod_1_r.
  - cbn [be_bytes]. rewrite from_bytes_cons, IH, Z_of_byte_of_Z.
    assert (Hl : List.length (be_bytes l n) = l).
    { clear. induction l; cbn; congruence. }
    rewrite Hl, Nat2Z.inj_succ, Z.pow_succ_r by lia.
    assert (Hp : 0 < 256 ^ Z.of_nat l) by (apply Z.pow_pos_nonneg; lia).
    rewrite (Z.mul_comm 256), Z.rem_mul_r by lia. ring.
Qed.

Lemma to_bytes_from_bytes n len bs :
  to_bytes n len = Ok bs -> from_bytes bs = n.
Proof.
  unfold to_bytes.
  destruct (n <? 0) eqn:E1; [discriminate|].
  destruct (256 ^ Z.of_nat len <=? n) eqn:E2; [discriminate|].
  cbn. intros [= <-]. rewrite from_bytes_be_bytes. apply Z.mod_small. lia.
Qed.

Lemma land_pow2 x k :
  0 <= k -> Z.land x (2 ^ k) = if Z.testbit x k then 2 ^ k else 0.
Proof.
  intros Hk. apply Z.bits_inj'. intros m Hm.
  rewrite Z.land_spec, Z.pow2_bits_eqb by assumption.
  destruct (Z.eqb_spec k m) as [-> | Hne].
  - destruct (Z.testbit x m);
      [now rewrite Z.pow2_bits_eqb, Z.eqb_refl | now rewrite Z.bits_0].
  - rewrite andb_false_r.
    destruct (Z.testbit x k); [|now rewrite Z.bits_0].
    rewrite Z.pow2_bits_eqb by assumption.
    symmetry. now apply Z.eqb_neq.
Qed.

Lemma land_pow2_pos x k : 0 <= k -> (Z.land x (2 ^ k) >? 0) = Z.testbit x k.
Proof.
  intros Hk. rewrite land_pow2 by assumption.
  assert (0 < 2 ^ k) by (apply Z.pow_pos_nonneg; lia).
  destruct (Z.testbit x k); lia.
Qed.

Lemma land_pow2_zero x k :
  0 <= k -> (Z.land x (2 ^ k) =? 0) = negb (Z.testbit x k).
Proof.
  intros Hk. rewrite land_pow2 by assumption.
  assert (0 < 2 ^ k) by (apply Z.pow_pos_nonneg; lia).
  destruct (Z.testbit x k); cbn; lia.
Qed.

(** Bit [i] of the first byte of an 8-byte big-endian field is bit
    [56 + i] of the integer. *)
Lemma first_byte_bit b r i :
  List.length r = 7%nat -> 0 <= i ->
  Z.testbit (Z_of_byte b) i = Z.testbit (from_bytes (b :: r)) (i + 56).
Proof.
  intros Hr Hi. rewrite from_bytes_cons, Hr.
  pose proof (from_bytes_range r) as Hrange. rewrite Hr in Hrange.
  change (256 ^ Z.of_nat 7) with (2 ^ 56) in *.
  rewrite <- Z.div_pow2_bits by lia.
  f_equal. rewrite Z.div_add_l by lia.
  rewrite (Z.div_small (from_bytes r)) by lia. lia.
Qed.

Lemma be_bytes_first_bit n i :
  0 <= i < 8 ->
  Z.testbit (Z_of_byte (byte_of_Z (n / 256 ^ 7))) i = Z.testbit n (i + 56).
Proof.
  intros Hi. rewrite Z_of_byte_of_Z.
  change 256 with (2 ^ 8) at 2.
  rewrite Z.mod_pow2_bits_low by lia.
  change (256 ^ 7) with (2 ^ 56).
  now rewrite Z.div_pow2_bits by lia.
Qed.

End ByteFacts.

(** ** Decimals read from digit strings *)

Section DigitStrings.
Import Py decimal amount.

Lemma span_digits_all_digits s :
  all_digits s = true -> span_digits s = (s, EmptyString).
Proof.
  induction s as [|c r IH]; [reflexivity|]. cbn [all_digits span_digits].
  intros [Hc Hr]%andb_true_iff. now rewrite Hc, (IH Hr).
Qed.

Lemma append_empty s : s ++ "" = s.
Proof.
  induction s as [|c r IH]; [reflexivity|]. cbn. now rewrite IH.
Qed.

Lemma split_sign_digit c r :
  isdigit c = true -> split_sign (String c r) = (false, String c r).
Proof.
  intros Hc.
  destruct c as [[] [] [] [] [] [] [] []]; try reflexivity; discriminate Hc.
Qed.

Lemma digits_value_bound s :
  all_digits s = true ->
  forall acc, 0 <= acc -> digits_value s acc < (acc + 1) * 10 ^ len s.
Proof.
  unfold len.
  induction s as [|c r IH]; intros H acc Hacc.
  - cbn. lia.
  - cbn [all_digits] in H. apply andb_true_iff in H as [Hc Hr].
    cbn [digits_value String.length].
    destruct (isdigit_digit_of c Hc) as (d & -> & Hd).
    specialize (IH Hr (10 * acc + d) ltac:(lia)).
    rewrite Nat2Z.inj_succ, Z.pow_succ_r by lia.
    assert (0 < 10 ^ Z.of_nat (String.length r))
      by (apply Z.pow_pos_nonneg; lia).
    nia.
Qed.

Lemma ndigits_digits_value s :
  digit_string s = true -> ndigits (digits_value s 0) <= len s.
Proof.
  intros H.
  assert (Hd : all_digits s = true) by (destruct s; [discriminate | exact H]).
  assert (1 <= len s) by (destruct s; [discriminate | unfold len; cbn; lia]).
  apply ndigits_le; [|assumption]. split.
  - apply digits_value_nonneg. lia.
  - pose proof (digits_value_bound s Hd 0 ltac:(lia)). lia.
Qed.

Lemma representable_integer n :
  0 <= n -> ndigits n <= MAX_PREC -> representable n 0 = true.
Proof.
  intros Hn Hd. unfold representable.
  assert (1 <= ndigits n).
  { destruct (Z.eq_dec n 0) as [-> | Hz]; [rewrite ndigits_zero; lia|].
    apply ndigits_spec. lia. }
  unfold MAX_EMAX, MIN_ETINY, MIN_EMIN, MAX_PREC in *.
  repeat (apply andb_true_iff; split); lia.
Qed.

Lemma of_str_digit_string s :
  digit_string s = true -> len s <= MAX_PREC ->
  of_str s = Ok (Finite false (digits_value s 0) 0).
Proof.
  intros H Hlen.
  assert (Hd : all_digits s = true) by (destruct s; [discriminate | exact H]).
  pose proof (ndigits_digits_value s H) as Hn.
  unfold of_str.
  rewrite (strip_all_digits s Hd), (remove_all_digits "_" s eq_refl Hd).
  destruct s as [|c r]; [discriminate|].
  assert (Hc : isdigit c = true)
    by (cbn in Hd; now apply andb_true_iff in Hd).
  rewrite (split_sign_digit c r Hc).
  unfold parse_number. rewrite (span_digits_all_digits _ Hd).
  cbn [append]. rewrite append_empty.
  change (len "") with 0. rewrite Z.sub_0_r.
  rewrite representable_integer;
    [reflexivity | apply digits_value_nonneg; lia | lia].
Qed.

Lemma contains_decimal_digit_string s :
  digit_string s = true -> _contains_decimal s = true.
Proof.
  intros H.
  assert (Hd : all_digits s = true) by (destruct s; [discriminate | exact H]).
  unfold _contains_decimal. now rewrite (find_all_digits "." s eq_refl Hd).
Qed.

(** Comparing a positive integer with the two bounds of the validator. *)
Lemma cmp_MIN_XRP n : 0 < n -> cmp (Finite false n 0) _MIN_XRP = 1.
Proof.
  intros Hn. unfold cmp, _MIN_XRP, adjusted.
  destruct (ndigits_spec n Hn) as (HL & _).
  change (ndigits 1) with 1.
  repeat match goal with
         | |- context [?a =? ?b] => destruct (Z.eqb_spec a b); try lia
         | |- context [?a >? ?b] => destruct (Z.gtb_spec a b); try lia
         end; reflexivity.
Qed.

Lemma cmp_MAX_DROPS n :
  0 < n ->
  cmp (Finite false n 0) _MAX_DROPS
  = if n <? 10 ^ 17 then -1 else if n =? 10 ^ 17 then 0 else 1.
Proof.
  intros Hn. unfold cmp, _MAX_DROPS, adjusted.
  destruct (ndigits_spec n Hn) as (HL & Hlo & Hhi).
  change (ndigits 1) with 1.
  change (Z.max 0 (0 - 17)) with 0. change (Z.max 0 (17 - 0)) with 17.
  rewrite Z.pow_0_r, Z.mul_1_r, Z.mul_1_l.
  change (negb false && false) with false. cbn [signum Z.opp].
  destruct (Z.eqb_spec n 0); [lia|]. change (1 =? 0) with false. cbv iota.
  destruct (Z.eqb_spec (0 + ndigits n - 1) (17 + 1 - 1)) as [E | E].
  - destruct (Z.eqb_spec n (10 ^ 17)), (Z.ltb_spec n (10 ^ 17));
      try reflexivity; lia.
  - destruct (Z.gtb_spec (0 + ndigits n - 1) (17 + 1 - 1)) as [G | G].
    + assert (10 ^ 18 <= 10 ^ (ndigits n - 1))
        by (apply pow10_le_mono; lia).
      destruct (Z.ltb_spec n (10 ^ 17)); [lia|].
      destruct (Z.eqb_spec n (10 ^ 17)); [lia | reflexivity].
    + assert (10 ^ ndigits n <= 10 ^ 17) by (apply pow10_le_mono; lia).
      destruct (Z.ltb_spec n (10 ^ 17)); [reflexivity | lia].
Qed.

(** The validator on a string that [Decimal] reads as a non-negative
    integer. *)
Lemma verify_xrp_value_nat s n :
  _contains_decimal s = true ->
  of_str s = Ok (Finite false n 0) -> 0 <= n ->
  verify_xrp_value s
  = if n <=? 10 ^ 17 then Ok tt else Raise XRPLBinaryCodecException.
Proof.
  intros Hd Hp Hn. unfold verify_xrp_value. rewrite Hd, Hp.
  cbn [negb bind is_zero].
  destruct (Z.eqb_spec n 0) as [-> | Hz]; [reflexivity|].
  unfold compare. cbn [check_nans bind].
  rewrite cmp_MIN_XRP, cmp_MAX_DROPS by lia.
  change (eq_int (of_int 1) (-1)) with (Ok false). cbn [bind].
  destruct (Z.ltb_spec n (10 ^ 17)).
  - destruct (Z.leb_spec n (10 ^ 17)); [reflexivity | lia].
  - destruct (Z.eqb_spec n (10 ^ 17)).
    + destruct (Z.leb_spec n (10 ^ 17)); [reflexivity | lia].
    + destruct (Z.leb_spec n (10 ^ 17)); [lia | reflexivity].
Qed.

End DigitStrings.

(** ** Native amounts *)

Section Native.
Import Py decimal amount.

Lemma lor_pos_bit n :
  0 <= n < 2 ^ 62 -> Z.lor n _POS_SIGN_BIT_MASK = n + 2 ^ 62.
Proof.
  intros Hn. change _POS_SIGN_BIT_MASK with (2 ^ 62).
  assert (Hb : Z.testbit n 62 = false).
  { destruct (Z.eq_dec n 0) as [-> | Hz]; [apply Z.bits_0|].
    apply Z.bits_above_log2; [lia|]. apply Z.log2_lt_pow2; lia. }
  assert (Hl : Z.land n (2 ^ 62) = 0) by (rewrite land_pow2, Hb; lia).
  rewrite <- Z.lxor_lor by assumption.
  symmetry. now apply Z.add_nocarry_lxor.
Qed.

(** What the encoder does on a string that [Decimal] and [int] both read
    as the non-negative integer [n]. *)
Lemma serialize_xrp_amount_nat s n :
  _contains_decimal s = true ->
  of_str s = Ok (Finite false n 0) -> int s = Ok n -> 0 <= n ->
  _serialize_xrp_amount s
  = if n <=? 10 ^ 17 then Ok (be_bytes 8 (n + 2 ^ 62))
    else Raise XRPLBinaryCodecException.
Proof.
  intros Hd Hp Hi Hn. unfold _serialize_xrp_amount.
  rewrite (verify_xrp_value_nat s n Hd Hp Hn).
  destruct (Z.leb_spec n (10 ^ 17)) as [Hle | Hgt]; [|reflexivity].
  cbn [bind]. rewrite Hi. cbn [bind].
  rewrite lor_pos_bit by lia. unfold Py.to_bytes.
  destruct (Z.ltb_spec (n + 2 ^ 62) 0); [lia|].
  destruct (Z.leb_spec (256 ^ Z.of_nat 8) (n + 2 ^ 62)); [|reflexivity].
  change (256 ^ Z.of_nat 8) with (2 ^ 64) in *. lia.
Qed.

Lemma serialize_xrp_amount_above s n :
  _contains_decimal s = true ->
  of_str s = Ok (Finite false n 0) -> 10 ^ 17 < n ->
  _serialize_xrp_amount s = Raise XRPLBinaryCodecException.
Proof.
  intros Hd Hp Hn. unfold _serialize_xrp_amount.
  rewrite (verify_xrp_value_nat s n Hd Hp) by lia.
  destruct (Z.leb_spec n (10 ^ 17)); [lia | reflexivity].
Qed.

Lemma max_str_digits_MAX_PREC : max_str_digits <= MAX_PREC.
Proof. discriminate. Qed.

Lemma serialize_xrp_amount_digit_string s :
  digit_string s = true -> len s <= max_str_digits ->
  _serialize_xrp_amount s
  = if digits_value s 0 <=? 10 ^ 17
    then Ok (be_bytes 8 (digits_value s 0 + 2 ^ 62))
    else Raise XRPLBinaryCodecException.
Proof.
  intros H Hlen. pose proof max_str_digits_MAX_PREC.
  apply serialize_xrp_amount_nat.
  - now apply contains_decimal_digit_string.
  - apply of_str_digit_string; [assumption | lia].
  - now apply int_digit_string.
  - apply digits_value_nonneg. lia.
Qed.

Lemma is_native_bit b r :
  List.length r = 7%nat ->
  is_native {| buffer := b :: r |}
  = Ok (negb (Z.testbit (from_bytes (b :: r)) 63)).
Proof.
  intros Hr. unfold is_native. cbn [buffer first_byte bind].
  change 0x80 with (2 ^ 7). rewrite land_pow2_zero by lia.
  now rewrite (first_byte_bit b r 7 Hr) by lia.
Qed.

Lemma is_positive_bit b r :
  List.length r = 7%nat ->
  is_positive {| buffer := b :: r |}
  = Ok (Z.testbit (from_bytes (b :: r)) 62).
Proof.
  intros Hr. unfold is_positive, amount.to_bytes.
  cbn [buffer first_byte bind].
  change 0x40 with (2 ^ 6). rewrite land_pow2_pos by lia.
  now rewrite (first_byte_bit b r 6 Hr) by lia.
Qed.

Lemma str_nonneg n : 0 <= n -> str n = str_nat n.
Proof.
  intros Hn. unfold str. destruct (Z.ltb_spec n 0); [lia | reflexivity].
Qed.

(** [to_json] on eight bytes with bit 63 clear. *)
Lemma to_json_native_bits (Currency AccountID : PeerCodec) (buf : list byte) :
  List.length buf = 8%nat ->
  Z.testbit (from_bytes buf) 63 = false ->
  to_json Currency AccountID {| buffer := buf |}
  = Ok (JStr ((if Z.testbit (from_bytes buf) 62 then "" else "-")
              ++ str_nat (from_bytes buf mod 2 ^ 62))).
Proof.
  intros Hlen Hbit.
  destruct buf as [|b r]; [discriminate|].
  assert (Hr : List.length r = 7%nat) by (cbn in Hlen; lia).
  unfold to_json. rewrite (is_native_bit b r Hr), Hbit. cbn [negb bind].
  rewrite (is_positive_bit b r Hr). cbn [bind buffer].
  change 0x3FFFFFFFFFFFFFFF with (Z.ones 62).
  rewrite Z.land_ones by lia.
  rewrite str_nonneg by (apply Z.mod_pos_bound; lia).
  reflexivity.
Qed.

(** C2 (as stated, refuted): the eight zero bytes are a native amount whose
    bit 62 is clear, and [to_json] renders them with a sign character. *)
Lemma to_json_native_zero_bytes_signed :
  to_json no_codec no_codec
    {| buffer := [x00; x00; x00; x00; x00; x00; x00; x00] |}
  = Ok (JStr "-0").
Proof. reflexivity. Qed.

(** C2 (amended): for every 8-byte buffer whose bit 63 is clear, [to_json]
    returns the base-10 digits of the low 62 bits, read as an unsigned
    big-endian integer, with no sign character when bit 62 is set and with
    a leading "-" when bit 62 is clear; the digits read back as that
    integer. *)
Theorem to_json_native_signed (Currency AccountID : PeerCodec)
    (buf : list byte) :
  List.length buf = 8%nat ->
  Z.testbit (from_bytes buf) 63 = false ->
  let v := from_bytes buf mod 2 ^ 62 in
  to_json Currency AccountID {| buffer := buf |}
  = Ok (JStr ((if Z.testbit (from_bytes buf) 62 then "" else "-") ++ str v))
  /\ digit_string (str v) = true
  /\ int (str v) = Ok v.
Proof.
  intros Hlen Hbit v.
  assert (Hv : 0 <= v) by (apply Z.mod_pos_bound; lia).
  rewrite (str_nonneg v Hv).
  split; [now apply to_json_native_bits|].
  split; [now apply str_nat_digit_string|].
  apply int_str_nat; [assumption|].
  transitivity 19; [|discriminate].
  apply ndigits_le; [|lia]. split; [assumption|].
  assert (v < 2 ^ 62) by (apply Z.mod_pos_bound; lia). lia.
Qed.

Lemma to_json_native_signed_witness :
  to_json no_codec no_codec
    {| buffer := [x40; x00; x00; x00; x00; x00; x00; x2a] |}
  = Ok (JStr "42").
Proof.
  exact (proj1 (to_json_native_signed no_codec no_codec
                  [x40; x00; x00; x00; x00; x00; x00; x2a]
                  eq_refl eq_refl)).
Defined.

(** C3 (code at the failing input): ["1e5"] has no decimal point and lies
    in range, so the validator lets it through, and [int] then raises
    ValueError, which leaves [from_value] as it is. *)
Theorem from_value_1e5_value_error (Currency AccountID : PeerCodec) :
  verify_xrp_value "1e5" = Ok tt
  /\ from_value Currency AccountID (VStr "1e5") = Raise ValueError.
Proof. split; reflexivity. Qed.

(** C4 (as stated, refuted): the string "100000000000000000" is exactly
    10^17, the upper bound itself, and is encoded. *)
Lemma native_encoding_accepts_1e17 :
  _serialize_xrp_amount "100000000000000000"
  = Ok [x41; x63; x45; x78; x5d; x8a; x00; x00].
Proof. reflexivity. Qed.

(** C4 (amended): native encoding fails with the codec's exception on
    "1.5" (decimal point), on "-1", on "100000000000000001" (above 10^17)
    and on every digit string whose value is above 10^17; it accepts "0",
    "100000000000000000" (10^17 itself) and every digit string of at most
    4300 digits whose value is at most 10^17. *)
Theorem native_encoding_accepts_and_rejects :
  _serialize_xrp_amount "1.5" = Raise XRPLBinaryCodecException
  /\ _serialize_xrp_amount "-1" = Raise XRPLBinaryCodecException
  /\ _serialize_xrp_amount "100000000000000001"
     = Raise XRPLBinaryCodecException
  /\ is_ok (_serialize_xrp_amount "0") = true
  /\ is_ok (_serialize_xrp_amount "100000000000000000") = true
  /\ forall s,
       digit_string s = true ->
       (digits_value s 0 <= 10 ^ 17 -> len s <= max_str_digits ->
        is_ok (_serialize_xrp_amount s) = true)
       /\ (10 ^ 17 < digits_value s 0 -> len s <= MAX_PREC ->
           _serialize_xrp_amount s = Raise XRPLBinaryCodecException).
Proof.
  repeat (split; [reflexivity|]).
  intros s Hs. split.
  - intros Hn Hlen.
    rewrite (serialize_xrp_amount_digit_string s Hs Hlen).
    destruct (Z.leb_spec (digits_value s 0) (10 ^ 17)); [reflexivity | lia].
  - intros Hn Hlen.
    apply (serialize_xrp_amount_above s (digits_value s 0));
      [now apply contains_decimal_digit_string
      |now apply of_str_digit_string
      |assumption].
Qed.

Lemma native_encoding_accepts_and_rejects_witness :
  is_ok (_serialize_xrp_amount "99999999999999999") = true
  /\ _serialize_xrp_amount "100000000000000002"
     = Raise XRPLBinaryCodecException.
Proof.
  destruct native_encoding_accepts_and_rejects as (_ & _ & _ & _ & _ & H).
  split.
  - apply (proj1 (H "99999999999999999" eq_refl));
      vm_compute; discriminate.
  - apply (proj2 (H "100000000000000002" eq_refl));
      [reflexivity | vm_compute; discriminate].
Defined.

(** C7 (code at the failing input): "1e5" has no decimal point and its
    value, 100000, lies between 10^-6 and 10^17, so the validator accepts
    it; the encoder then raises ValueError at [int] and there are no eight
    bytes to decode.  "1e-6" and "1E17", the two ends of the range, go the
    same way. *)
Theorem native_round_trip_exponent_strings (Currency AccountID : PeerCodec) :
  _contains_decimal "1e5" = true
  /\ of_str "1e5" = Ok (Finite false 1 5)
  /\ verify_xrp_value "1e5" = Ok tt
  /\ _serialize_xrp_amount "1e5" = Raise ValueError
  /\ (a <- from_value Currency AccountID (VStr "1e5") ;;
      to_json Currency AccountID a) = Raise ValueError
  /\ (verify_xrp_value "1e-6" = Ok tt
      /\ from_value Currency AccountID (VStr "1e-6") = Raise ValueError)
  /\ (verify_xrp_value "1E17" = Ok tt
      /\ from_value Currency AccountID (VStr "1E17") = Raise ValueError).
Proof. repeat split. Qed.

(** A string of 4301 zeros passes the validator as well, and [int] stops
    at its limit of 4300 digits. *)
Example native_long_zero_value_error :
  verify_xrp_value (repeat_char "0" 4301) = Ok tt
  /\ _serialize_xrp_amount (repeat_char "0" 4301) = Raise ValueError
  /\ is_ok (_serialize_xrp_amount (repeat_char "0" 4300)) = true.
Proof. repeat split; vm_compute; reflexivity. Qed.

(** *** Strings that [int] reads *)

Lemma int_split_sign s :
  let t := rstrip isspace_int (lstrip isspace_int s) in
  int s
  = match int_digits (snd (split_sign t)) 0 false with
    | Some n =>
        if max_str_digits <? count_digits (snd (split_sign t))
        then Raise ValueError
        else Ok (if fst (split_sign t) then - n else n)
    | None => Raise ValueError
    end.
Proof.
  cbv zeta. unfold int.
  destruct (rstrip isspace_int (lstrip isspace_int s)) as [|c r];
    [reflexivity|].
  destruct c as [[] [] [] [] [] [] [] []]; reflexivity.
Qed.

(** Without its underscores, a string that [int_digits] reads is a string
    of digits with the same value, as long as the string had digits; and
    the string has no blank in it. *)
Lemma int_digits_remove body :
  forall acc b v,
    int_digits body acc b = Some v ->
    all_digits (remove "_" body) = true
    /\ digits_value (remove "_" body) acc = v
    /\ no_blank body = true
    /\ count_digits body = len (remove "_" body)
    /\ (b = false -> exists c r, body = String c r /\ isdigit c = true).
Proof.
  unfold len.
  induction body as [|c r IH]; intros acc b v; cbn [int_digits].
  - destruct b; [|discriminate]. intros [= <-].
    repeat split. discriminate.
  - destruct (digit_of c) as [d|] eqn:Hd.
    + intros H. destruct (IH _ _ _ H) as (Ha & Hv & Hn & Hcnt & _).
      assert (Hc : isdigit c = true) by (unfold isdigit; now rewrite Hd).
      cbn [remove]. rewrite (isdigit_neq c "_" Hc eq_refl).
      cbn [all_digits digits_value no_blank count_digits String.length].
      rewrite Hc, Hd, (isdigit_not_space c Hc), Hn, Hcnt.
      repeat split; try assumption; try lia. intros _. now exists c, r.
    + destruct (Ascii.eqb_spec c "_") as [-> | Hne]; [|discriminate].
      destruct b; [|discriminate]. cbn [andb].
      destruct r as [|c' r']; [discriminate|].
      destruct (isdigit c'); [|discriminate].
      intros H. destruct (IH _ _ _ H) as (Ha & Hv & Hn & Hcnt & _).
      change (remove "_" (String "_" (String c' r')))
        with (remove "_" (String c' r')).
      change (no_blank (String "_" (String c' r')))
        with (no_blank (String c' r')).
      change (count_digits (String "_" (String c' r')))
        with (0 + count_digits (String c' r')).
      repeat split; try assumption; try lia; try discriminate.
Qed.

(** The blanks of [int] are blanks of [str.strip] too, so on a string
    that [int] reads both strip the same characters. *)
Lemma isspace_int_isspace c : isspace_int c = true -> isspace c = true.
Proof.
  unfold isspace_int, isspace.
  repeat match goal with
         | |- context [?a <=? ?b] => destruct (Z.leb_spec a b)
         | |- context [?a =? ?b] => destruct (Z.eqb_spec a b)
         end; cbn; intros; try reflexivity; try discriminate; lia.
Qed.

Lemma lstrip_sub s c r :
  lstrip isspace_int s = String c r -> isspace c = false ->
  lstrip isspace s = String c r.
Proof.
  induction s as [|d t IH]; [discriminate|]. cbn [lstrip].
  destruct (isspace_int d) eqn:E.
  - rewrite (isspace_int_isspace d E). exact IH.
  - intros [= -> ->] Hc. now rewrite Hc.
Qed.

Lemma rstrip_sub u :
  forall t, rstrip isspace_int u = t -> no_blank t = true ->
            rstrip isspace u = t.
Proof.
  induction u as [|c r IH]; intros t; cbn [rstrip]; [now intros <-|].
  destruct (rstrip isspace_int r) as [|c' r'] eqn:E.
  - rewrite (IH EmptyString eq_refl eq_refl).
    destruct (isspace_int c) eqn:Ec.
    + intros <- _. now rewrite (isspace_int_isspace c Ec).
    + intros <-. cbn [no_blank].
      destruct (isspace c); [discriminate | reflexivity].
  - intros <-. cbn [no_blank]. intros [_ Hn]%andb_true_iff.
    now rewrite (IH (String c' r') eq_refl Hn).
Qed.

Lemma rstrip_head p c r c' t :
  rstrip p (String c r) = String c' t -> c' = c.
Proof.
  cbn [rstrip]. destruct (rstrip p r); [destruct (p c)|]; congruence.
Qed.

Lemma strip_int_strip s c t :
  rstrip isspace_int (lstrip isspace_int s) = String c t ->
  no_blank (String c t) = true ->
  strip s = String c t.
Proof.
  intros E Hn. unfold strip.
  destruct (lstrip isspace_int s) as [|d u] eqn:El; [discriminate|].
  pose proof (rstrip_head _ _ _ _ _ E) as ->.
  assert (Hd : isspace d = false).
  { cbn [no_blank] in Hn. now destruct (isspace d). }
  rewrite (lstrip_sub s d u El Hd). now apply rstrip_sub.
Qed.

Lemma split_sign_remove s :
  (forall c r, snd (split_sign s) = String c r -> Ascii.eqb c "_" = false) ->
  split_sign (remove "_" s)
  = (fst (split_sign s), remove "_" (snd (split_sign s))).
Proof.
  intros H. destruct s as [|c r]; [reflexivity|].
  destruct (Ascii.eqb_spec c "-") as [-> | N1]; [reflexivity|].
  destruct (Ascii.eqb_spec c "+") as [-> | N2]; [reflexivity|].
  assert (E : split_sign (String c r) = (false, String c r)).
  { destruct c as [[] [] [] [] [] [] [] []]; try reflexivity;
      [now contradiction N2 | now contradiction N1]. }
  rewrite E in *. cbn [fst snd] in *.
  specialize (H c r eq_refl). cbn [remove]. rewrite H.
  destruct c as [[] [] [] [] [] [] [] []]; try reflexivity;
    [now contradiction N2 | now contradiction N1].
Qed.

Lemma split_sign_no_blank s :
  no_blank (snd (split_sign s)) = true -> no_blank s = true.
Proof.
  destruct s as [|c r]; [reflexivity|].
  destruct (Ascii.eqb_spec c "-") as [-> | N1]; [exact (fun H => H)|].
  destruct (Ascii.eqb_spec c "+") as [-> | N2]; [exact (fun H => H)|].
  assert (E : split_sign (String c r) = (false, String c r)).
  { destruct c as [[] [] [] [] [] [] [] []]; try reflexivity;
      [now contradiction N2 | now contradiction N1]. }
  now rewrite E.
Qed.

(** A string that [int] reads is read by [Decimal] as the same integer. *)
Lemma of_str_int s n :
  int s = Ok n ->
  exists (neg : bool) v,
    of_str s = Ok (Finite neg v 0) /\ 0 <= v
    /\ ndigits v <= max_str_digits
    /\ n = (if neg then - v else v).
Proof.
  rewrite int_split_sign. cbv zeta.
  set (t := rstrip isspace_int (lstrip isspace_int s)).
  destruct (int_digits _ 0 false) as [v|] eqn:Hd; [|discriminate].
  destruct (Z.ltb_spec max_str_digits (count_digits (snd (split_sign t))))
    as [|Hcnt]; [discriminate|].
  intros [= <-].
  destruct (int_digits_remove _ _ _ _ Hd) as (Ha & Hv & Hn & Hc' & Hne).
  destruct (Hne eq_refl) as (c & r & Hb & Hc).
  assert (Ht : strip s = t).
  { pose proof (split_sign_no_blank t Hn) as Hnt.
    destruct t as [|d u] eqn:Et; [discriminate Hb|].
    now apply strip_int_strip. }
  assert (Hds : digit_string (remove "_" (snd (split_sign t))) = true).
  { rewrite Hb in *. cbn [remove] in *.
    rewrite (isdigit_neq c "_" Hc eq_refl) in *. exact Ha. }
  pose proof (ndigits_digits_value _ Hds) as Hnd. rewrite Hv in Hnd.
  assert (H0 : 0 <= v) by (rewrite <- Hv; apply digits_value_nonneg; lia).
  exists (fst (split_sign t)), v.
  split; [|repeat split; try assumption; lia].
  unfold of_str. rewrite Ht, split_sign_remove.
  - rewrite Hb in *. cbn [remove] in *.
    rewrite (isdigit_neq c "_" Hc eq_refl) in *.
    unfold parse_number. rewrite (span_digits_all_digits _ Ha).
    cbn [append]. rewrite append_empty, Hv.
    change (len "") with 0. rewrite Z.sub_0_r.
    rewrite representable_integer; [reflexivity | assumption|].
    pose proof max_str_digits_MAX_PREC. lia.
  - intros c0 r0 E. rewrite Hb in E. injection E as <- <-.
    now apply isdigit_neq.
Qed.

(** The validator lets an integer through only if it is zero or lies
    between 1 and 10^17. *)
Lemma verify_xrp_value_int s (neg : bool) v :
  of_str s = Ok (Finite neg v 0) -> 0 <= v ->
  verify_xrp_value s = Ok tt ->
  v = 0 \/ (neg = false /\ v <= 10 ^ 17).
Proof.
  intros Hp Hv. unfold verify_xrp_value.
  destruct (_contains_decimal s); [|discriminate].
  rewrite Hp. cbn [negb bind is_zero].
  destruct (Z.eqb_spec v 0) as [-> | Hz]; [now left|].
  unfold compare. cbn [check_nans bind].
  destruct neg.
  - assert (E : cmp (Finite true v 0) _MIN_XRP = -1).
    { unfold cmp, _MIN_XRP. destruct (Z.eqb_spec v 0); [lia | reflexivity]. }
    rewrite E. discriminate.
  - rewrite cmp_MIN_XRP, cmp_MAX_DROPS by lia.
    change (eq_int (of_int 1) (-1)) with (Ok false). cbn [bind].
    intros H. right. split; [reflexivity|].
    destruct (Z.ltb_spec v (10 ^ 17)); [lia|].
    destruct (Z.eqb_spec v (10 ^ 17)); [lia | discriminate].
Qed.

(** Whatever string the encoder accepts, it is an integer between 0 and
    10^17 and the bytes are that integer with bit 62 set. *)
Lemma serialize_xrp_amount_ok s bs :
  _serialize_xrp_amount s = Ok bs ->
  exists n, int s = Ok n /\ 0 <= n <= 10 ^ 17
            /\ bs = be_bytes 8 (n + 2 ^ 62).
Proof.
  unfold _serialize_xrp_amount.
  destruct (verify_xrp_value s) as [[]|] eqn:Hv; [|discriminate].
  cbn [bind]. destruct (int s) as [n|] eqn:Hi; [|discriminate].
  cbn [bind]. intros Hb.
  destruct (of_str_int s n Hi) as (neg & v & Hp & Hv0 & _ & ->).
  destruct (verify_xrp_value_int s neg v Hp Hv0 Hv) as [-> | [-> Hle]].
  - exists 0. assert (E : (if neg then - 0 else 0) = 0) by (now destruct neg).
    rewrite E in *. apply to_bytes_from_bytes in Hb as Hfb.
    repeat split; try lia.
    unfold Py.to_bytes in Hb. cbn in Hb. now injection Hb as <-.
  - exists v. repeat split; try lia.
    rewrite lor_pos_bit in Hb by lia.
    unfold Py.to_bytes in Hb.
    destruct (_ || _); [discriminate|]. now injection Hb as <-.
Qed.

Lemma to_json_encoded (Currency AccountID : PeerCodec) n :
  0 <= n <= 10 ^ 17 ->
  to_json Currency AccountID {| buffer := be_bytes 8 (n + 2 ^ 62) |}
  = Ok (JStr (str_nat n)).
Proof.
  intros Hn.
  assert (Hfb : from_bytes (be_bytes 8 (n + 2 ^ 62)) = n + 2 ^ 62).
  { rewrite from_bytes_be_bytes. apply Z.mod_small.
    change (256 ^ Z.of_nat 8) with (2 ^ 64). lia. }
  assert (Hdiv : (n + 2 ^ 62) / 2 ^ 62 = 1).
  { symmetry. apply (Z.div_unique _ _ 1 n); lia. }
  assert (H63 : Z.testbit (n + 2 ^ 62) 63 = false).
  { apply Z.bits_above_log2; [lia|]. apply Z.log2_lt_pow2; lia. }
  assert (H62 : Z.testbit (n + 2 ^ 62) 62 = true).
  { rewrite Z.testbit_true by lia. now rewrite Hdiv. }
  rewrite to_json_native_bits; [|reflexivity | now rewrite Hfb].
  rewrite Hfb, H62.
  replace ((n + 2 ^ 62) mod 2 ^ 62) with n; [reflexivity|].
  apply (Z.mod_unique _ _ 1); lia.
Qed.

(** X12: round trip on what the encoder accepts.  A digit string whose
    value is at most 10^17 and that [int] reads is encoded; and whenever
    [from_value] returns an amount for a string [s], [to_json] of that
    amount is a digit string that denotes the same integer as [s]. *)
Theorem native_round_trip_accepted (Currency AccountID : PeerCodec)
    (s : string) :
  (forall n,
      digit_string s = true -> int s = Ok n -> n <= 10 ^ 17 ->
      is_ok (from_value Currency AccountID (VStr s)) = true)
  /\ (forall a,
         from_value Currency AccountID (VStr s) = Ok a ->
         exists t n,
           to_json Currency AccountID a = Ok (JStr t)
           /\ digit_string t = true
           /\ int s = Ok n
           /\ int t = Ok n).
Proof.
  split.
  - intros n Hs Hn Hle.
    destruct (of_str_int s n Hn) as (neg & v & Hp & Hv0 & _ & ->).
    destruct (Z.leb_spec (len s) max_str_digits) as [Hlen | Hlen].
    + rewrite (int_digit_string s Hs Hlen) in Hn. injection Hn as Hn.
      unfold from_value.
      rewrite (serialize_xrp_amount_digit_string s Hs Hlen), Hn.
      destruct (Z.leb_spec (if neg then - v else v) (10 ^ 17));
        [reflexivity | lia].
    + rewrite (int_digit_string_cases s Hs) in Hn.
      destruct (Z.ltb_spec max_str_digits (len s)); [discriminate | lia].
  - intros a. unfold from_value.
    destruct (_serialize_xrp_amount s) as [bs|] eqn:Hb; [|discriminate].
    cbn [bind]. intros [= <-].
    destruct (serialize_xrp_amount_ok s bs Hb) as (n & Hi & Hn & ->).
    exists (str_nat n), n. split; [|split; [|split]].
    + now apply to_json_encoded.
    + apply str_nat_digit_string. lia.
    + assumption.
    + apply int_str_nat; [lia|].
      transitivity 18; [|discriminate].
      apply ndigits_le; lia.
Qed.

Lemma native_round_trip_accepted_witness :
  is_ok (from_value no_codec no_codec (VStr "25")) = true
  /\ exists t n,
      to_json no_codec no_codec
        {| buffer := [x40; x00; x00; x00; x00; x00; x00; x19] |}
      = Ok (JStr t)
      /\ digit_string t = true
      /\ int " 25 " = Ok n
      /\ int t = Ok n.
Proof.
  split.
  - apply (proj1 (native_round_trip_accepted no_codec no_codec "25") 25);
      [reflexivity | reflexivity | vm_compute; discriminate].
  - apply (proj2 (native_round_trip_accepted no_codec no_codec " 25 ")).
    reflexivity.
Defined.

Example native_round_trip_spellings :
  (a <- from_value no_codec no_codec (VStr " +1_000 ") ;;
   to_json no_codec no_codec a) = Ok (JStr "1000")
  /\ (a <- from_value no_codec no_codec (VStr "-0") ;;
      to_json no_codec no_codec a) = Ok (JStr "0")
  /\ (a <- from_value no_codec no_codec (VStr "007") ;;
      to_json no_codec no_codec a) = Ok (JStr "7").
Proof. repeat split. Qed.

End Native.

(** ** The validator of issued values *)

Section Validator.
Import Py decimal amount.

Lemma plain_app s t : plain (s ++ t) = plain s && plain t.
Proof.
  induction s as [|c r IH]; [reflexivity|].
  cbn [append plain]. now rewrite IH, andb_assoc.
Qed.

Lemma plain_char_parts c :
  plain_char c = true ->
  isspace c = false /\ Ascii.eqb c "_" = false /\ Ascii.eqb c "." = false.
Proof.
  unfold plain_char.
  destruct (isspace c), (Ascii.eqb c "_"), (Ascii.eqb c ".");
    cbn; intros; try discriminate; auto.
Qed.

Lemma plain_digits s : all_digits s = true -> plain s = true.
Proof.
  induction s as [|c r IH]; [reflexivity|]. cbn [all_digits plain].
  intros [Hc Hr]%andb_true_iff. rewrite (IH Hr), andb_true_r.
  unfold plain_char.
  rewrite (isdigit_not_space c Hc), (isdigit_neq c "_" Hc eq_refl),
    (isdigit_neq c "." Hc eq_refl).
  reflexivity.
Qed.

Lemma plain_repeat_zero n : plain (repeat_char "0" n) = true.
Proof.
  unfold repeat_char. induction (Z.to_nat n) as [|k IH]; [reflexivity|].
  cbn. exact IH.
Qed.

Lemma plain_str z : plain (str z) = true.
Proof.
  unfold str. destruct (z <? 0) eqn:E.
  - cbn [plain]. rewrite plain_digits; [reflexivity|].
    assert (H : digit_string (str_nat (- z)) = true)
      by (apply str_nat_digit_string; lia).
    destruct (str_nat (- z)); [discriminate | exact H].
  - apply plain_digits.
    assert (H : digit_string (str_nat z) = true)
      by (apply str_nat_digit_string; lia).
    destruct (str_nat z); [discriminate | exact H].
Qed.

Lemma rstrip_plain s : plain s = true -> rstrip isspace s = s.
Proof.
  induction s as [|c r IH]; [reflexivity|]. cbn [plain rstrip].
  intros [Hc Hr]%andb_true_iff. rewrite (IH Hr).
  destruct (plain_char_parts c Hc) as (-> & _).
  now destruct r.
Qed.

Lemma strip_plain s : plain s = true -> strip s = s.
Proof.
  intros H. unfold strip.
  replace (lstrip isspace s) with s; [now apply rstrip_plain|].
  destruct s as [|c r]; [reflexivity|]. cbn [plain lstrip] in *.
  apply andb_true_iff in H as [Hc _].
  now destruct (plain_char_parts c Hc) as (-> & _).
Qed.

Lemma remove_plain s : plain s = true -> remove "_" s = s.
Proof.
  induction s as [|c r IH]; [reflexivity|]. cbn [plain remove].
  intros [Hc Hr]%andb_true_iff. rewrite (IH Hr).
  now destruct (plain_char_parts c Hc) as (_ & -> & _).
Qed.

Lemma find_plain s : plain s = true -> find "." s = -1.
Proof.
  induction s as [|c r IH]; [reflexivity|]. cbn [plain find].
  intros [Hc Hr]%andb_true_iff. rewrite (IH Hr).
  now destruct (plain_char_parts c Hc) as (_ & _ & ->).
Qed.

Lemma str_nat_all_digits n : 0 <= n -> all_digits (str_nat n) = true.
Proof.
  intros Hn. pose proof (str_nat_digit_string n Hn) as H.
  unfold digit_string in H. destruct (str_nat n); [discriminate | exact H].
Qed.

(** The exponent the validator builds: ["1e" + str(z)] is read back as
    1E[z]. *)
Lemma parse_exp_str z : parse_exp (str z) = Some z.
Proof.
  unfold parse_exp, str. destruct (Z.ltb_spec z 0) as [Hz | Hz].
  - cbn [split_sign].
    rewrite (span_digits_all_digits _ (str_nat_all_digits (- z) ltac:(lia))).
    pose proof (str_nat_digit_string (- z) ltac:(lia)) as Hd.
    pose proof (digits_value_str_nat (- z) ltac:(lia)) as Hv.
    destruct (str_nat (- z)) as [|c d]; [discriminate|].
    rewrite Hv. f_equal. lia.
  - pose proof (str_nat_digit_string z Hz) as Hd.
    pose proof (digits_value_str_nat z Hz) as Hv.
    pose proof (str_nat_all_digits z Hz) as Ha.
    destruct (str_nat z) as [|c d] eqn:E; [discriminate|].
    assert (Hc : isdigit c = true)
      by (cbn in Ha; now apply andb_true_iff in Ha).
    rewrite (split_sign_digit c d Hc), (span_digits_all_digits _ Ha), Hv.
    reflexivity.
Qed.

Lemma of_str_power_of_ten z :
  MIN_ETINY <= z <= MAX_EMAX ->
  of_str ("1e" ++ str z) = Ok (Finite false 1 z).
Proof.
  intros Hz.
  assert (Hp : plain ("1e" ++ str z) = true)
    by (rewrite plain_app, plain_str; reflexivity).
  unfold of_str. rewrite (strip_plain _ Hp), (remove_plain _ Hp).
  cbn [append split_sign]. unfold parse_number.
  cbn [span_digits isdigit digit_of]. cbn.
  rewrite parse_exp_str.
  change (len "") with 0. change (digits_value ("1" ++ "") 0) with 1.
  rewrite Z.sub_0_r. unfold representable.
  change (ndigits 1) with 1.
  change (0 <=? MAX_PREC) with true. change (1 <=? MAX_PREC) with true.
  destruct (Z.leb_spec (z + 1 - 1) MAX_EMAX); [|lia].
  destruct (Z.leb_spec MIN_ETINY z); [reflexivity | lia].
Qed.

Lemma ndigits_unique n L :
  10 ^ (L - 1) <= n < 10 ^ L -> 1 <= L -> ndigits n = L.
Proof.
  intros [Hlo Hhi] HL.
  assert (Hn : 0 < n).
  { assert (0 < 10 ^ (L - 1)) by (apply Z.pow_pos_nonneg; lia). lia. }
  destruct (ndigits_spec n Hn) as (H1 & Hlo' & Hhi').
  destruct (Z.lt_trichotomy (ndigits n) L) as [Hlt | [Heq | Hgt]];
    [|assumption|].
  - assert (10 ^ ndigits n <= 10 ^ (L - 1)) by (apply pow10_le_mono; lia).
    lia.
  - assert (10 ^ L <= 10 ^ (ndigits n - 1)) by (apply pow10_le_mono; lia).
    lia.
Qed.

(** Rounding a coefficient of at most 65 digits at exponent 15 to the
    context gives a positive coefficient with an exponent of at least 15. *)
Lemma fix_scaled (sign : bool) c :
  0 < c < 10 ^ 65 ->
  exists c' e',
    fix_ context sign c 15 = Ok (Finite sign c' e') /\ 0 < c' /\ 15 <= e'.
Proof.
  intros [Hc Hhi].
  destruct (ndigits_spec c Hc) as (HL & Hlo' & Hhi').
  assert (HL65 : ndigits c <= 65).
  { destruct (Z.le_gt_cases (ndigits c) 65) as [|Hgt]; [assumption|].
    assert (10 ^ 65 <= 10 ^ (ndigits c - 1)) by (apply pow10_le_mono; lia).
    lia. }
  unfold fix_, Etop, Etiny, context, _MAX_IOU_PRECISION, _MAX_IOU_EXPONENT,
    _MIN_IOU_EXPONENT.
  cbn [prec Emax Emin].
  set (L := ndigits c) in *.
  destruct (Z.eqb_spec c 0); [lia|].
  destruct (Z.gtb_spec (L + 15 - 16) (80 - 16 + 1)); [lia|].
  destruct (Z.ltb_spec (L + 15 - 16) (-96 - 16 + 1)); [lia|].
  destruct (Z.ltb_spec 15 (L + 15 - 16)) as [Hround | Hfit].
  - destruct (Z.ltb_spec (L + 15 - (L + 15 - 16)) 0); [lia|].
    fold L.
    replace (L - (L + 15 - (L + 15 - 16))) with (L - 16) by lia.
    set (k := L - 16) in *.
    assert (Hk : 0 < 10 ^ k) by (apply Z.pow_pos_nonneg; lia).
    assert (Hkept : 10 ^ 15 <= c / 10 ^ k < 10 ^ 16).
    { split.
      - apply Z.div_le_lower_bound; [assumption|].
        rewrite <- Z.pow_add_r by lia.
        replace (k + 15) with (L - 1) by lia. assumption.
      - apply Z.div_lt_upper_bound; [assumption|].
        rewrite <- Z.pow_add_r by lia.
        replace (k + 16) with L by lia. assumption. }
    destruct (round_half_even c k >? 0).
    + destruct (Z.gtb_spec (ndigits (c / 10 ^ k + 1)) 16) as [Hcarry | Hno].
      * destruct (Z.gtb_spec (L + 15 - 16 + 1) (80 - 16 + 1)); [lia|].
        eexists _, _. split; [reflexivity|]. split; [|lia].
        apply Z.div_str_pos. lia.
      * destruct (Z.gtb_spec (L + 15 - 16) (80 - 16 + 1)); [lia|].
        eexists _, _. split; [reflexivity|]. lia.
    + destruct (Z.gtb_spec (L + 15 - 16) (80 - 16 + 1)); [lia|].
      eexists _, _. split; [reflexivity|]. lia.
  - eexists _, _. split; [reflexivity|]. lia.
Qed.

(** Positional notation of a positive number whose exponent is positive
    has no decimal point. *)
Lemma format_f_no_point (sign : bool) c e :
  0 < c -> 0 < e -> _contains_decimal (format_f (Finite sign c e)) = true.
Proof.
  intros Hc He. unfold _contains_decimal, format_f.
  destruct (Z.eqb_spec c 0); [lia|]. cbn [andb].
  assert (Hlen : 0 <= len (str_nat c)) by (unfold len; lia).
  destruct (Z.ltb_spec (e + len (str_nat c)) 0); [lia|].
  destruct (Z.gtb_spec (e + len (str_nat c)) (len (str_nat c))); [|lia].
  rewrite find_plain; [reflexivity|].
  rewrite !plain_app, plain_repeat_zero.
  rewrite (plain_digits _ (str_nat_all_digits c ltac:(lia))).
  destruct sign; reflexivity.
Qed.

(** Validation of a nonzero value looks at the exponent only, as long as
    the coefficient has at most 65 digits. *)
Lemma verify_iou_value_in_range (sign : bool) c e :
  0 < c < 10 ^ 65 ->
  _MIN_IOU_EXPONENT <= e <= _MAX_IOU_EXPONENT ->
  verify_iou_value (Finite sign c e) = Ok tt.
Proof.
  intros Hc He. unfold verify_iou_value. cbn [is_zero].
  destruct (Z.eqb_spec c 0); [lia|].
  cbn [decimal.exponent exponent_gtb exponent_ltb bind].
  change (prec context >? _MAX_IOU_PRECISION) with false. cbv iota.
  destruct (Z.gtb_spec e _MAX_IOU_EXPONENT); [lia|]. cbn [bind].
  destruct (Z.ltb_spec e _MIN_IOU_EXPONENT); [lia|]. cbn [bind].
  unfold _verify_no_decimal.
  cbn [decimal.exponent int_of_exponent bind].
  rewrite of_str_power_of_ten
    by (unfold _MIN_IOU_EXPONENT, _MAX_IOU_EXPONENT, MIN_ETINY, MIN_EMIN,
          MAX_PREC, MAX_EMAX in *; lia).
  cbn [bind mul sign_of xorb].
  rewrite xorb_false_r, Z.mul_1_r.
  replace (e + - (e - 15)) with 15 by lia.
  destruct (fix_scaled sign c Hc) as (c' & e' & -> & Hc' & He').
  cbn [bind]. rewrite format_f_no_point by lia. reflexivity.
Qed.

(** A nonzero value that passes validation has at most 66 digits: with
    more, the product of [_verify_no_decimal] overflows the context. *)
Lemma verify_iou_value_ok_digits (sign : bool) c e :
  c <> 0 ->
  verify_iou_value (Finite sign c e) = Ok tt ->
  ndigits c <= 66.
Proof.
  intros Hc. unfold verify_iou_value. cbn [is_zero].
  destruct (Z.eqb_spec c 0); [contradiction|].
  cbn [decimal.exponent exponent_gtb exponent_ltb bind].
  change (prec context >? _MAX_IOU_PRECISION) with false. cbv iota.
  destruct (Z.gtb_spec e _MAX_IOU_EXPONENT); [discriminate|]. cbn [bind].
  destruct (Z.ltb_spec e _MIN_IOU_EXPONENT); [discriminate|]. cbn [bind].
  unfold _verify_no_decimal.
  cbn [decimal.exponent int_of_exponent bind].
  rewrite of_str_power_of_ten
    by (unfold _MIN_IOU_EXPONENT, _MAX_IOU_EXPONENT, MIN_ETINY, MIN_EMIN,
          MAX_PREC, MAX_EMAX in *; lia).
  cbn [bind mul sign_of xorb].
  rewrite Z.mul_1_r.
  replace (e + - (e - 15)) with 15 by lia.
  unfold fix_, Etop, Etiny, context, _MAX_IOU_PRECISION, _MAX_IOU_EXPONENT,
    _MIN_IOU_EXPONENT.
  cbn [prec Emax Emin].
  destruct (Z.eqb_spec c 0); [contradiction|].
  destruct (Z.gtb_spec (ndigits c + 15 - 16) (80 - 16 + 1));
    [discriminate|]. intros _. lia.
Qed.

Lemma verify_iou_value_out_of_range (sign : bool) c e :
  c <> 0 ->
  e < _MIN_IOU_EXPONENT \/ _MAX_IOU_EXPONENT < e ->
  verify_iou_value (Finite sign c e) = Raise XRPLBinaryCodecException.
Proof.
  intros Hc He. unfold verify_iou_value. cbn [is_zero].
  destruct (Z.eqb_spec c 0); [contradiction|].
  cbn [decimal.exponent exponent_gtb exponent_ltb bind].
  change (prec context >? _MAX_IOU_PRECISION) with false. cbv iota.
  destruct (Z.gtb_spec e _MAX_IOU_EXPONENT); [reflexivity|]. cbn [bind].
  destruct (Z.ltb_spec e _MIN_IOU_EXPONENT); [reflexivity | lia].
Qed.

End Validator.

(** ** Issued-currency values *)

Section Issued.
Import Py decimal amount.

Lemma digits_value_app s t :
  all_digits s = true ->
  forall acc, digits_value (s ++ t) acc = digits_value t (digits_value s acc).
Proof.
  induction s as [|c r IH]; intros H acc; [reflexivity|].
  cbn [all_digits] in H. apply andb_true_iff in H as [Hc Hr].
  cbn [append digits_value].
  destruct (isdigit_digit_of c Hc) as (d & -> & _). now apply IH.
Qed.

Lemma parse_special_not_finite sg body sign c e :
  parse_special sg body <> Some (Finite sign c e).
Proof.
  unfold parse_special.
  destruct (_ || _); [discriminate|].
  destruct (match str_lower body with
            | String "s" r => (true, r)
            | _ => (false, str_lower body)
            end) as [sig r].
  destruct r as [|c1 r]; [discriminate|].
  destruct c1 as [[] [] [] [] [] [] [] []]; try discriminate.
  destruct r as [|c2 r]; [discriminate|].
  destruct c2 as [[] [] [] [] [] [] [] []]; try discriminate.
  destruct r as [|c3 d]; [discriminate|].
  destruct c3 as [[] [] [] [] [] [] [] []]; try discriminate.
  destruct (span_digits d) as [p [|]]; discriminate.
Qed.

(** The coefficient of a parsed number is never negative. *)
Lemma of_str_coeff_nonneg value sign c e :
  of_str value = Ok (Finite sign c e) -> 0 <= c.
Proof.
  unfold of_str.
  destruct (split_sign _) as [sg body].
  destruct (parse_number body) as [[[ip fp] ex]|].
  - destruct (_ && _); [|discriminate].
    intros [= _ <- _]. apply digits_value_nonneg. lia.
  - pose proof (parse_special_not_finite sg body sign c e) as H.
    destruct (parse_special sg body) as [[s0 c0 e0 | s0 | s0 g0 p0]|];
      [| |destruct (_ <=? _)|]; try discriminate.
    intros [= -> -> ->]. contradiction.
Qed.

Lemma to_bytes_ok n bs :
  Py.to_bytes n 8 = Ok bs -> 0 <= n < 2 ^ 64 /\ bs = be_bytes 8 n.
Proof.
  unfold Py.to_bytes. change (256 ^ Z.of_nat 8) with (2 ^ 64).
  destruct (Z.ltb_spec n 0); [discriminate|].
  destruct (Z.leb_spec (2 ^ 64) n); [discriminate|].
  cbn. intros [= <-]. split; [lia | reflexivity].
Qed.

Lemma is_positive_be_bytes n rest :
  is_positive {| buffer := (be_bytes 8 n ++ rest)%list |}
  = Ok (Z.testbit n 62).
Proof.
  unfold is_positive, amount.to_bytes. cbn [buffer be_bytes app first_byte bind].
  change 0x40 with (2 ^ 6). rewrite land_pow2_pos by lia.
  change (Z.of_nat 7) with 7.
  now rewrite (be_bytes_first_bit n 6) by lia.
Qed.

(** The tail of the serializer, once its overflow check passes. *)
Lemma pack_value_field (sign : bool) mantissa exp :
  exp <= _MAX_IOU_EXPONENT -> mantissa <= _MAX_MANTISSA ->
  pack (if sign then 1 else 0) mantissa exp
  = Py.to_bytes (value_field sign mantissa exp) 8.
Proof.
  intros He Hm. unfold pack.
  destruct (Z.gtb_spec exp _MAX_IOU_EXPONENT); [lia|].
  destruct (Z.gtb_spec mantissa _MAX_MANTISSA); [lia|].
  destruct ((exp <? _MIN_IOU_EXPONENT) || (mantissa <? _MIN_MANTISSA));
    destruct sign; reflexivity.
Qed.

Lemma pack_overflow sign mantissa exp :
  exp > _MAX_IOU_EXPONENT \/ mantissa > _MAX_MANTISSA ->
  pack sign mantissa exp = Raise XRPLBinaryCodecException.
Proof.
  intros H. unfold pack.
  assert (E : (exp >? _MAX_IOU_EXPONENT) || (mantissa >? _MAX_MANTISSA) = true).
  { apply orb_true_iff. destruct H; [left | right]; lia. }
  rewrite E.
  destruct ((exp <? _MIN_IOU_EXPONENT) || (mantissa <? _MIN_MANTISSA));
    reflexivity.
Qed.

(** The serializer on a nonzero finite number that passes validation. *)
Lemma serialize_nonzero value (sign : bool) c e :
  of_str value = Ok (Finite sign c e) -> c <> 0 ->
  verify_iou_value (Finite sign c e) = Ok tt ->
  _serialize_issued_currency_value value
  = (st <- downscale (fst (upscale c e)) (snd (upscale c e)) ;;
     pack (if sign then 1 else 0) (fst st) (snd st)).
Proof.
  intros Hp Hc Hv. unfold _serialize_issued_currency_value.
  rewrite Hp. cbn [bind]. rewrite Hv. cbn [bind is_zero].
  destruct (Z.eqb_spec c 0); [contradiction|].
  cbn [as_tuple sign_of exponent].
  rewrite int_str_nat;
    [|eapply of_str_coeff_nonneg; eassumption
     |pose proof (verify_iou_value_ok_digits sign c e Hc Hv);
      unfold max_str_digits; lia].
  cbn [bind]. destruct (upscale c e) as [m1 e1]. cbn [fst snd].
  destruct (downscale m1 e1) as [[m2 e2]|]; reflexivity.
Qed.

Lemma serialize_zero value d :
  of_str value = Ok d -> is_zero d = true ->
  _serialize_issued_currency_value value = Ok zero_field.
Proof.
  intros Hp Hz. unfold _serialize_issued_currency_value.
  rewrite Hp. cbn [bind]. unfold verify_iou_value. rewrite Hz.
  reflexivity.
Qed.

(** *** The loops run to their end

    Both loops are written with a bound on the number of turns; the bound
    is never what stops them: at the state they return, the condition of
    the [while] is false. *)





(** *** The downscale loop *)

Lemma log2_div10 m : 1 < m -> Z.log2 (m / 10) <= Z.log2 m - 1.
Proof.
  intros Hm.
  pose proof (Z.div_mod m 10 ltac:(lia)) as Hdm.
  pose proof (Z.mod_pos_bound m 10 ltac:(lia)) as Hmod.
  assert (H1 : 1 <= Z.log2 m).
  { change 1 with (Z.log2 2). apply Z.log2_le_mono. lia. }
  destruct (Z.eq_dec (m / 10) 0) as [-> | Hq]; [cbn; lia|].
  assert (Hpos : 0 < m / 10).
  { pose proof (Z.div_pos m 10 ltac:(lia) ltac:(lia)). lia. }
  pose proof (Z.log2_double (m / 10) Hpos) as Hd.
  assert (Z.log2 (2 * (m / 10)) <= Z.log2 m) by (apply Z.log2_le_mono; lia).
  lia.
Qed.

Lemma downscale_loop_raises m e m' e' :
  downscale_visits m e m' e' ->
  m' > _MAX_MANTISSA -> e' >= _MAX_IOU_EXPONENT ->
  forall fuel, (Z.to_nat (Z.log2 m) <= fuel)%nat ->
  downscale_loop fuel m e = Raise XRPLBinaryCodecException.
Proof.
  induction 1 as [m e | m e m' e' Hm He Hv IH]; intros Hm' He' fuel Hf.
  - assert (1 <= Z.log2 m).
    { change 1 with (Z.log2 2). apply Z.log2_le_mono.
      unfold _MAX_MANTISSA in Hm'. lia. }
    destruct fuel as [|f]; [lia|]. cbn [downscale_loop].
    destruct (Z.gtb_spec m _MAX_MANTISSA); [|lia].
    destruct (Z.geb_spec e _MAX_IOU_EXPONENT); [reflexivity | lia].
  - assert (1 < m) by (unfold _MAX_MANTISSA in Hm; lia).
    assert (1 <= Z.log2 m).
    { change 1 with (Z.log2 2). apply Z.log2_le_mono. lia. }
    destruct fuel as [|f]; [lia|]. cbn [downscale_loop].
    destruct (Z.gtb_spec m _MAX_MANTISSA); [|lia].
    destruct (Z.geb_spec e _MAX_IOU_EXPONENT); [lia|].
    apply IH; try assumption.
    pose proof (log2_div10 m ltac:(lia)).
    pose proof (Z.log2_nonneg (m / 10)). lia.
Qed.

(** A mantissa of [16 + k] digits leaves the loop after [k] turns,
    cut down to its 16 leading digits. *)
Lemma downscale_loop_truncates (k : nat) :
  forall fuel m e,
    10 ^ (15 + Z.of_nat k) <= m < 10 ^ (16 + Z.of_nat k) ->
    e + Z.of_nat k <= _MAX_IOU_EXPONENT ->
    (k <= fuel)%nat ->
    downscale_loop fuel m e = Ok (m / 10 ^ Z.of_nat k, e + Z.of_nat k).
Proof.
  induction k as [|k IH]; intros fuel m e Hm He Hf.
  - change (Z.of_nat 0) with 0 in *. rewrite Z.add_0_r in *.
    rewrite Z.pow_0_r, Z.div_1_r.
    destruct fuel; cbn [downscale_loop]; [reflexivity|].
    destruct (Z.gtb_spec m _MAX_MANTISSA); [|reflexivity].
    unfold _MAX_MANTISSA in *. lia.
  - rewrite Nat2Z.inj_succ in *.
    replace (15 + Z.succ (Z.of_nat k)) with (Z.succ (15 + Z.of_nat k)) in Hm by lia.
    replace (16 + Z.succ (Z.of_nat k)) with (Z.succ (16 + Z.of_nat k)) in Hm by lia.
    rewrite !Z.pow_succ_r in Hm by lia.
    assert (10 ^ 16 <= 10 ^ (16 + Z.of_nat k)) by (apply pow10_le_mono; lia).
    replace (16 + Z.of_nat k) with (Z.succ (15 + Z.of_nat k)) in H by lia.
    rewrite Z.pow_succ_r in H by lia.
    destruct fuel as [|f]; [lia|]. cbn [downscale_loop].
    destruct (Z.gtb_spec m _MAX_MANTISSA);
      [|unfold _MAX_MANTISSA in *; lia].
    destruct (Z.geb_spec e _MAX_IOU_EXPONENT); [lia|].
    rewrite IH.
    + rewrite Z.pow_succ_r, Z.div_div by lia.
      f_equal. f_equal. lia.
    + split.
      * apply Z.div_le_lower_bound; lia.
      * apply Z.div_lt_upper_bound; lia.
    + lia.
    + lia.
Qed.

Lemma upscale_in_window m e : _MIN_MANTISSA <= m -> upscale m e = (m, e).
Proof.
  intros Hm. unfold upscale.
  destruct (Z.to_nat (e - _MIN_IOU_EXPONENT)); cbn [upscale_loop];
    [reflexivity|].
  destruct (Z.ltb_spec m _MIN_MANTISSA); [lia | reflexivity].
Qed.

(** Truncation toward zero: a validated value whose coefficient has
    [16 + k] digits is packed with the coefficient divided by [10 ^ k],
    whatever the dropped digits are. *)
Lemma serialize_truncates value (sign : bool) c e (k : nat) :
  of_str value = Ok (Finite sign c e) ->
  10 ^ (15 + Z.of_nat k) <= c < 10 ^ (16 + Z.of_nat k) ->
  verify_iou_value (Finite sign c e) = Ok tt ->
  e + Z.of_nat k <= _MAX_IOU_EXPONENT ->
  _serialize_issued_currency_value value
  = Py.to_bytes (value_field sign (c / 10 ^ Z.of_nat k) (e + Z.of_nat k)) 8.
Proof.
  intros Hp Hc Hv He.
  assert (H15 : 10 ^ 15 <= 10 ^ (15 + Z.of_nat k))
    by (apply pow10_le_mono; lia).
  rewrite (serialize_nonzero value sign c e Hp) by (try assumption; lia).
  rewrite upscale_in_window by (unfold _MIN_MANTISSA; lia). cbn [fst snd].
  unfold downscale. rewrite (downscale_loop_truncates k); try assumption.
  - cbn [bind fst snd]. apply pack_value_field; [assumption|].
    unfold _MAX_MANTISSA.
    assert (c / 10 ^ Z.of_nat k < 10 ^ 16); [|lia].
    apply Z.div_lt_upper_bound; [apply Z.pow_pos_nonneg; lia|].
    rewrite <- Z.pow_add_r by lia.
    replace (Z.of_nat k + 16) with (16 + Z.of_nat k) by lia. lia.
  - apply Nat2Z.inj_le. rewrite Z2Nat.id by apply Z.log2_nonneg.
    transitivity (Z.log2 (2 ^ (15 + Z.of_nat k))).
    + rewrite Z.log2_pow2 by lia. lia.
    + apply Z.log2_le_mono.
      transitivity (10 ^ (15 + Z.of_nat k)); [|lia].
      apply Z.pow_le_mono_l. lia.
Qed.

Lemma lor_lt_pow2 a b n :
  0 <= a < 2 ^ n -> 0 <= b < 2 ^ n -> 0 <= Z.lor a b < 2 ^ n.
Proof.
  intros [Ha Ha'] [Hb Hb'].
  assert (H0 : 0 <= Z.lor a b) by (apply Z.lor_nonneg; lia).
  split; [assumption|].
  destruct (Z.eq_dec (Z.lor a b) 0) as [-> | Hne]; [lia|].
  apply Z.log2_lt_pow2; [lia|].
  rewrite Z.log2_lor by assumption.
  destruct (Z.eq_dec a 0) as [-> | Hane];
    destruct (Z.eq_dec b 0) as [-> | Hbne].
  - now rewrite Z.lor_0_l in Hne.
  - change (Z.log2 0) with 0. rewrite Z.max_r by apply Z.log2_nonneg.
    apply Z.log2_lt_pow2; lia.
  - change (Z.log2 0) with 0. rewrite Z.max_l by apply Z.log2_nonneg.
    apply Z.log2_lt_pow2; lia.
  - apply Z.max_lub_lt; apply Z.log2_lt_pow2; lia.
Qed.

Lemma value_field_range (sign : bool) m e :
  0 <= m <= _MAX_MANTISSA -> -97 <= e <= _MAX_IOU_EXPONENT ->
  0 <= value_field sign m e < 2 ^ 64.
Proof.
  unfold value_field, _MAX_MANTISSA, _MAX_IOU_EXPONENT. intros Hm He.
  apply lor_lt_pow2; [apply lor_lt_pow2|]; try lia.
  - destruct sign; vm_compute; split; congruence.
  - rewrite Z.shiftl_mul_pow2 by lia. lia.
Qed.

(** X14: truncation.  A value of 17 to 65 significant digits whose
    exponent [e] is at least -96 and stays at most 80 once the [k] digits
    beyond the sixteenth are dropped is serialized with its coefficient
    cut to the 16 leading digits, never rounded, and exponent [e + k]. *)
Theorem issued_truncates value (sign : bool) c e (k : nat) :
  of_str value = Ok (Finite sign c e) ->
  10 ^ (15 + Z.of_nat k) <= c < 10 ^ (16 + Z.of_nat k) ->
  (1 <= k <= 49)%nat ->
  _MIN_IOU_EXPONENT <= e -> e + Z.of_nat k <= _MAX_IOU_EXPONENT ->
  _serialize_issued_currency_value value
  = Ok (be_bytes 8
          (value_field sign (c / 10 ^ Z.of_nat k) (e + Z.of_nat k))).
Proof.
  intros Hp Hc Hk Hlo Hhi.
  assert (Hpow : 0 < 10 ^ (15 + Z.of_nat k)) by (apply Z.pow_pos_nonneg; lia).
  assert (H65 : 10 ^ (16 + Z.of_nat k) <= 10 ^ 65)
    by (apply pow10_le_mono; lia).
  rewrite (serialize_truncates value sign c e k Hp Hc); [|
    apply verify_iou_value_in_range; unfold _MIN_IOU_EXPONENT,
      _MAX_IOU_EXPONENT in *; lia | assumption].
  assert (Hk10 : 0 < 10 ^ Z.of_nat k) by (apply Z.pow_pos_nonneg; lia).
  assert (Hq : 0 <= c / 10 ^ Z.of_nat k <= _MAX_MANTISSA).
  { split; [apply Z.div_pos; lia|]. unfold _MAX_MANTISSA.
    assert (c / 10 ^ Z.of_nat k < 10 ^ 16); [|lia].
    apply Z.div_lt_upper_bound; [assumption|].
    rewrite <- Z.pow_add_r by lia.
    replace (Z.of_nat k + 16) with (16 + Z.of_nat k) by lia. lia. }
  pose proof (value_field_range sign _ (e + Z.of_nat k) Hq) as Hr.
  unfold Py.to_bytes. change (256 ^ Z.of_nat 8) with (2 ^ 64).
  unfold _MIN_IOU_EXPONENT in *.
  destruct (Z.ltb_spec (value_field sign (c / 10 ^ Z.of_nat k) (e + Z.of_nat k)) 0);
    [lia|].
  destruct (Z.leb_spec (2 ^ 64) (value_field sign (c / 10 ^ Z.of_nat k) (e + Z.of_nat k)));
    [lia | reflexivity].
Qed.

Lemma issued_truncates_witness :
  _serialize_issued_currency_value "-12345678901234569"
  = Ok (be_bytes 8
          (value_field true (12345678901234569 / 10 ^ Z.of_nat 1)
             (0 + Z.of_nat 1))).
Proof.
  apply (issued_truncates "-12345678901234569" true 12345678901234569 0 1).
  - reflexivity.
  - split; [apply Z.leb_le | apply Z.ltb_lt]; vm_compute; reflexivity.
  - lia.
  - discriminate.
  - discriminate.
Defined.

(** *** No nonzero value is rounded to zero *)

Lemma upscale_loop_pos fuel :
  forall m e, 0 < m -> 0 < fst (upscale_loop fuel m e).
Proof.
  induction fuel as [|f IH]; intros m e Hm; cbn [upscale_loop];
    [assumption|].
  destruct (_ && _); [apply IH; lia | assumption].
Qed.

Lemma downscale_loop_pos fuel :
  forall m e m' e',
    0 < m -> downscale_loop fuel m e = Ok (m', e') -> 0 < m'.
Proof.
  induction fuel as [|f IH]; intros m e m' e' Hm; cbn [downscale_loop].
  - now intros [= <- _].
  - destruct (Z.gtb_spec m _MAX_MANTISSA) as [Hgt | Hle];
      [|now intros [= <- _]].
    destruct (e >=? _MAX_IOU_EXPONENT); [discriminate|].
    apply IH. unfold _MAX_MANTISSA in Hgt.
    apply Z.div_str_pos. lia.
Qed.

Lemma value_field_not_zero (sign : bool) m e :
  0 < m <= _MAX_MANTISSA -> value_field sign m e <> 2 ^ 63.
Proof.
  intros [Hm Hmax] E.
  assert (Hl : Z.log2 m < 54).
  { apply Z.log2_lt_pow2; [assumption|]. unfold _MAX_MANTISSA in Hmax. lia. }
  pose proof (Z.log2_nonneg m) as Hl0.
  assert (Hb : Z.testbit (value_field sign m e) (Z.log2 m) = true).
  { unfold value_field. rewrite Z.lor_spec, (Z.bit_log2 m Hm).
    apply orb_true_r. }
  rewrite E, Z.pow2_bits_eqb in Hb by lia.
  apply Z.eqb_eq in Hb. lia.
Qed.

(** X15: the branch of the serializer that rounds small values to zero
    has no effect on the result: whenever a nonzero value is serialized,
    the bytes are not the zero encoding. *)
Theorem issued_nonzero_not_zero_field value (sign : bool) c e :
  of_str value = Ok (Finite sign c e) -> c <> 0 ->
  _serialize_issued_currency_value value <> Ok zero_field.
Proof.
  intros Hp Hc Hs.
  pose proof (of_str_coeff_nonneg value sign c e Hp) as H0.
  assert (Hv : verify_iou_value (Finite sign c e) = Ok tt).
  { unfold _serialize_issued_currency_value in Hs. rewrite Hp in Hs.
    cbn [bind] in Hs.
    destruct (verify_iou_value _) as [[]|]; [reflexivity | discriminate]. }
  rewrite (serialize_nonzero value sign c e Hp Hc Hv) in Hs.
  pose proof (upscale_loop_pos (Z.to_nat (e - _MIN_IOU_EXPONENT)) c e
                ltac:(lia)) as Hup.
  fold (upscale c e) in Hup.
  destruct (downscale _ _) as [[m2 e2]|] eqn:Hd; [|discriminate].
  apply downscale_loop_pos in Hd; [|assumption].
  cbn [bind fst snd] in Hs.
  destruct (Z.gtb_spec e2 _MAX_IOU_EXPONENT) as [He | He];
    [rewrite pack_overflow in Hs by (left; lia); discriminate|].
  destruct (Z.gtb_spec m2 _MAX_MANTISSA) as [Hm | Hm];
    [rewrite pack_overflow in Hs by (right; lia); discriminate|].
  rewrite pack_value_field in Hs by assumption.
  apply to_bytes_from_bytes in Hs.
  change (Py.from_bytes zero_field) with (2 ^ 63) in Hs.
  symmetry in Hs. revert Hs. apply value_field_not_zero. lia.
Qed.

Lemma issued_nonzero_not_zero_field_witness :
  _serialize_issued_currency_value "-0.000123" <> Ok zero_field.
Proof.
  apply (issued_nonzero_not_zero_field "-0.000123" true 123 (-6) eq_refl).
  discriminate.
Defined.

End Issued.

(** ** The claims on issued-currency values *)

Section IssuedClaims.
Import Py decimal amount.

(** C1 (code at the failing input): canonicalization of "1e-96" ends with
    mantissa 1, below 10^15, and exponent -96; the serializer builds the
    zero bytes, drops them and packs the out-of-window mantissa: sign bit
    set, exponent field 1, mantissa 1, not the zero encoding. *)
Theorem serialize_1e_96_not_zero :
  of_str "1e-96" = Ok (Finite false 1 (-96))
  /\ upscale 1 (-96) = (1, -96)
  /\ downscale 1 (-96) = Ok (1, -96)
  /\ 1 < _MIN_MANTISSA
  /\ _serialize_issued_currency_value "1e-96"
     = Ok [xc0; x40; x00; x00; x00; x00; x00; x01]
  /\ _serialize_issued_currency_value "1e-96" <> Ok zero_field.
Proof.
  repeat (split; [reflexivity|]). discriminate.
Qed.

(** C5 (code at the failing input): the value encoded from "1e16" has
    mantissa 10^15 and exponent 1, and [to_json] renders it through
    [str], in scientific notation with its fifteen zeros. *)
Theorem to_json_value_1e16_scientific :
  _serialize_issued_currency_value "1e16"
  = Ok [xd8; x83; x8d; x7e; xa4; xc6; x80; x00]
  /\ to_json_value [xd8; x83; x8d; x7e; xa4; xc6; x80; x00]
     = Ok "1.000000000000000E+16".
Proof. split; reflexivity. Qed.

(** The same path cuts the zeros of an exponent: 10^20 is rendered as a
    string that denotes 100. *)
Example to_json_value_1e20 :
  exists bs,
    _serialize_issued_currency_value "1e20" = Ok bs
    /\ to_json_value bs = Ok "1.000000000000000E+2".
Proof. eexists. split; reflexivity. Qed.

(** Values written without a positive exponent come out as plain decimal
    strings. *)
Example to_json_value_plain :
  (exists bs, _serialize_issued_currency_value "10" = Ok bs
              /\ to_json_value bs = Ok "10")
  /\ (exists bs, _serialize_issued_currency_value "-0.000123" = Ok bs
                 /\ to_json_value bs = Ok "-0.000123").
Proof. split; eexists; split; reflexivity. Qed.

(** C6 (code at the failing input): a 67-digit integer, exponent 0, would
    be cut to 16 digits with exponent 51; the validator first scales it by
    10^15 in the 16-digit context, and that product overflows. *)
Theorem serialize_67_digits_overflow :
  _serialize_issued_currency_value
    "1000000000000000000000000000000000000000000000000000000000000000001"
  = Raise DecimalOverflow.
Proof. reflexivity. Qed.

(** Up to that length the serializer truncates: 17 digits ending in 9 lose
    the 9, and the mantissa is not rounded up. *)
Example serialize_17_digits_truncates :
  _serialize_issued_currency_value "12345678901234569"
  = Py.to_bytes (value_field false 1234567890123456 1) 8
  /\ _serialize_issued_currency_value "-12345678901234569"
     = Py.to_bytes (value_field true 1234567890123456 1) 8.
Proof. split; reflexivity. Qed.

(** C8 (as stated, refuted): "0e1000000000000000000" denotes zero, but
    its exponent is above the largest one a [Decimal] can have; the
    constructor raises InvalidOperation and no value field is built. *)
Lemma issued_zero_exponent_out_of_range :
  of_str "0e1000000000000000000" = Raise DecimalInvalidOperation
  /\ _serialize_issued_currency_value "0e1000000000000000000"
     = Raise DecimalInvalidOperation.
Proof. split; reflexivity. Qed.

(** C8 (amended): every string that [Decimal] reads as a finite number
    with coefficient zero, "0", "0.0" and "-0" among them, is serialized to
    eight bytes in which bit 63 is the only bit set. *)
Theorem issued_zero_canonical (value : string) (d : Decimal) :
  of_str value = Ok d -> is_zero d = true ->
  exists bs,
    _serialize_issued_currency_value value = Ok bs
    /\ List.length bs = 8%nat
    /\ forall i, 0 <= i -> Z.testbit (from_bytes bs) i = (i =? 63).
Proof.
  intros Hp Hz. exists zero_field.
  split; [now apply (serialize_zero value d) | split; [reflexivity|]].
  intros i Hi. change (from_bytes zero_field) with (2 ^ 63).
  rewrite Z.pow2_bits_eqb by lia. apply Z.eqb_sym.
Qed.

Lemma issued_zero_canonical_witness :
  (exists bs,
      _serialize_issued_currency_value "0" = Ok bs
      /\ List.length bs = 8%nat
      /\ forall i, 0 <= i -> Z.testbit (from_bytes bs) i = (i =? 63))
  /\ (exists bs,
         _serialize_issued_currency_value "0.0" = Ok bs
         /\ List.length bs = 8%nat
         /\ forall i, 0 <= i -> Z.testbit (from_bytes bs) i = (i =? 63))
  /\ (exists bs,
         _serialize_issued_currency_value "-0" = Ok bs
         /\ List.length bs = 8%nat
         /\ forall i, 0 <= i -> Z.testbit (from_bytes bs) i = (i =? 63)).
Proof.
  split; [|split].
  - exact (issued_zero_canonical "0" (Finite false 0 0) eq_refl eq_refl).
  - exact (issued_zero_canonical "0.0" (Finite false 0 (-1))
             eq_refl eq_refl).
  - exact (issued_zero_canonical "-0" (Finite true 0 0) eq_refl eq_refl).
Defined.

Example issued_zero_spellings :
  _serialize_issued_currency_value "0" = Ok zero_field
  /\ _serialize_issued_currency_value "0.0" = Ok zero_field
  /\ _serialize_issued_currency_value "-0" = Ok zero_field
  /\ _serialize_issued_currency_value "0e5" = Ok zero_field
  /\ _serialize_issued_currency_value " +.000E-3 " = Ok zero_field.
Proof. repeat split. Qed.

(** C9: when the downscale loop comes to a mantissa above 10^16 - 1 with
    an exponent of 80 or more, serialization raises the codec's exception;
    and past the loops, a state with exponent above 80 or mantissa above
    10^16 - 1 raises it too.  Neither path returns bytes. *)
Theorem overflow_raises :
  (forall value (sign : bool) c e m' e',
      of_str value = Ok (Finite sign c e) -> c <> 0 ->
      verify_iou_value (Finite sign c e) = Ok tt ->
      downscale_visits (fst (upscale c e)) (snd (upscale c e)) m' e' ->
      m' > _MAX_MANTISSA -> e' >= _MAX_IOU_EXPONENT ->
      _serialize_issued_currency_value value
      = Raise XRPLBinaryCodecException)
  /\ (forall sign m e,
         e > _MAX_IOU_EXPONENT \/ m > _MAX_MANTISSA ->
         pack sign m e = Raise XRPLBinaryCodecException).
Proof.
  split.
  - intros value sign c e m' e' Hp Hc Hv Hvis Hm He.
    rewrite (serialize_nonzero value sign c e Hp Hc Hv).
    unfold downscale.
    now rewrite (downscale_loop_raises _ _ m' e' Hvis Hm He).
  - intros sign m e H. now apply pack_overflow.
Qed.

Lemma overflow_raises_witness :
  _serialize_issued_currency_value "12345678901234567e80"
  = Raise XRPLBinaryCodecException
  /\ pack 0 (10 ^ 16) 0 = Raise XRPLBinaryCodecException.
Proof.
  split.
  - apply (proj1 overflow_raises "12345678901234567e80"
             false 12345678901234567 80 12345678901234567 80).
    + reflexivity.
    + discriminate.
    + reflexivity.
    + exact (visits_here 12345678901234567 80).
    + reflexivity.
    + discriminate.
  - apply (proj2 overflow_raises 0 (10 ^ 16) 0). right. reflexivity.
Defined.

(** *** The sign bit *)

Lemma testbit_small x i : 0 <= x < 2 ^ i -> Z.testbit x i = false.
Proof.
  intros [H0 Hlt].
  destruct (Z.eq_dec x 0) as [-> | Hx]; [apply Z.bits_0|].
  apply Z.bits_above_log2; [assumption|].
  apply Z.log2_lt_pow2; lia.
Qed.

Lemma value_field_bit62 (sign : bool) m e :
  0 <= value_field sign m e ->
  e <= _MAX_IOU_EXPONENT -> m <= _MAX_MANTISSA ->
  Z.testbit (value_field sign m e) 62 = negb sign.
Proof.
  unfold value_field. intros H0 He Hm.
  apply Z.lor_nonneg in H0 as [H1 Hm0].
  apply Z.lor_nonneg in H1 as [_ Hs].
  apply Z.shiftl_nonneg in Hs.
  rewrite !Z.lor_spec, Z.shiftl_spec by lia.
  rewrite (testbit_small m 62)
    by (unfold _MAX_MANTISSA in Hm; split; [assumption|]; lia).
  rewrite (testbit_small (e + 97) (62 - 54))
    by (unfold _MAX_IOU_EXPONENT in He; split; [assumption|];
        change (2 ^ (62 - 54)) with 256; lia).
  destruct sign; reflexivity.
Qed.

(** C10 (as stated, refuted): the value field encoded from "0" has only
    bit 63 set, and on an amount that starts with it [is_positive] is
    false. *)
Lemma is_positive_issued_zero_false :
  _serialize_issued_currency_value "0" = Ok zero_field
  /\ is_positive {| buffer := (zero_field ++ List.repeat x00 40)%list |}
     = Ok false.
Proof. split; reflexivity. Qed.

(** C10 (amended): [is_positive] returns bit 62 of the value field.  It is
    true for every native amount the encoder produces, and for an issued
    value the encoder produces it is true exactly when the value is
    nonzero and its sign is non-negative; for a zero value, whose field has
    only bit 63 set, it is false. *)
Theorem is_positive_encoded :
  (forall value bs,
      _serialize_xrp_amount value = Ok bs ->
      is_positive {| buffer := bs |} = Ok true)
  /\ (forall value (sign : bool) c e bs rest,
         of_str value = Ok (Finite sign c e) ->
         _serialize_issued_currency_value value = Ok bs ->
         is_positive {| buffer := (bs ++ rest)%list |}
         = Ok (negb sign && negb (c =? 0))).
Proof.
  split.
  - intros value bs. unfold _serialize_xrp_amount.
    destruct (verify_xrp_value value) as [[]|]; [|discriminate].
    cbn [bind]. destruct (int value) as [n|]; [|discriminate].
    cbn [bind]. intros [_ ->]%to_bytes_ok.
    rewrite <- (app_nil_r (be_bytes 8 _)), is_positive_be_bytes.
    now rewrite Z.lor_spec, orb_true_r.
  - intros value sign c e bs rest Hp Hs.
    destruct (Z.eqb_spec c 0) as [-> | Hc].
    + rewrite (serialize_zero value _ Hp eq_refl) in Hs.
      injection Hs as <-. now rewrite andb_false_r.
    + rewrite andb_true_r.
      assert (Hv : verify_iou_value (Finite sign c e) = Ok tt).
      { unfold _serialize_issued_currency_value in Hs. rewrite Hp in Hs.
        cbn [bind] in Hs.
        destruct (verify_iou_value _) as [[]|]; [reflexivity | discriminate]. }
      rewrite (serialize_nonzero value sign c e Hp Hc Hv) in Hs.
      destruct (downscale _ _) as [[m2 e2]|]; [|discriminate].
      cbn [bind fst snd] in Hs.
      destruct (Z.gtb_spec e2 _MAX_IOU_EXPONENT) as [He | He];
        [rewrite pack_overflow in Hs by (left; lia); discriminate|].
      destruct (Z.gtb_spec m2 _MAX_MANTISSA) as [Hm | Hm];
        [rewrite pack_overflow in Hs by (right; lia); discriminate|].
      rewrite pack_value_field in Hs by assumption.
      apply to_bytes_ok in Hs as [[H0 _] ->].
      rewrite is_positive_be_bytes.
      now rewrite value_field_bit62.
Qed.

Lemma is_positive_encoded_witness :
  is_positive {| buffer := [x40; x00; x00; x00; x00; x00; x00; x07] |}
  = Ok true
  /\ is_positive
       {| buffer := ([xd4; x83; x8d; x7e; xa4; xc6; x80; x00]
                     ++ List.repeat x00 40)%list |}
     = Ok true
  /\ is_positive
       {| buffer := ([x94; x83; x8d; x7e; xa4; xc6; x80; x00]
                     ++ List.repeat x00 40)%list |}
     = Ok false.
Proof.
  split; [|split].
  - exact (proj1 is_positive_encoded "7" _ eq_refl).
  - exact (proj2 is_positive_encoded "1" false 1 0 _ (List.repeat x00 40)
             eq_refl eq_refl).
  - exact (proj2 is_positive_encoded "-1" true 1 0 _ (List.repeat x00 40)
             eq_refl eq_refl).
Defined.

End IssuedClaims.

(* ================================================================== *)
(** * Further properties of the module *)

(** ** Shapes: decimal points and dict keys *)

Section Shapes.
Import Py decimal amount.

Lemma find_lower_bound c s : -1 <= find c s.
Proof.
  induction s as [|d r IH]; cbn [find]; [lia|].
  destruct (Ascii.eqb d c); [lia|].
  destruct (Z.eqb_spec (find c r) (-1)); lia.
Qed.

Lemma find_absent c s :
  find c s = -1 <-> ~ In c (list_ascii_of_string s).
Proof.
  induction s as [|d r IH]; cbn [find list_ascii_of_string In].
  - split; [intros _ [] | reflexivity].
  - pose proof (find_lower_bound c r) as Hlb.
    destruct (Ascii.eqb_spec d c) as [-> | Hne].
    + split; [discriminate | intros H; exfalso; apply H; now left].
    + destruct (Z.eqb_spec (find c r) (-1)) as [E | E].
      * split; [|reflexivity]. intros _ [H | H]; [contradiction|].
        now apply IH in H.
      * split; [lia|]. intros H. exfalso. apply E, IH.
        intros Hin. apply H. now right.
Qed.

Lemma contains_decimal_absent s :
  _contains_decimal s = true <-> ~ In "."%char (list_ascii_of_string s).
Proof.
  unfold _contains_decimal. rewrite Z.eqb_eq. apply find_absent.
Qed.

(** X1: [_contains_decimal] answers the opposite of its name: it is true
    exactly for the strings in which no character is a point. *)
Theorem contains_decimal_truth_table (s : string) :
  _contains_decimal s = true <-> ~ In "."%char (list_ascii_of_string s).
Proof. apply contains_decimal_absent. Qed.

(** X2: a string with a point anywhere in it is refused as a native amount
    with the codec's exception, before anything tries to read it as a
    number: no other error can come out of such a string. *)
Theorem native_point_rejected (Currency AccountID : PeerCodec) (s : string) :
  In "."%char (list_ascii_of_string s) ->
  verify_xrp_value s = Raise XRPLBinaryCodecException
  /\ from_value Currency AccountID (VStr s)
     = Raise XRPLBinaryCodecException.
Proof.
  intros Hin.
  assert (E : _contains_decimal s = false).
  { destruct (_contains_decimal s) eqn:E; [|reflexivity].
    apply contains_decimal_absent in E. contradiction. }
  unfold from_value, _serialize_xrp_amount, verify_xrp_value.
  rewrite E. split; reflexivity.
Qed.

Lemma native_point_rejected_witness :
  verify_xrp_value "1.5" = Raise XRPLBinaryCodecException
  /\ from_value no_codec no_codec (VStr "1.5")
     = Raise XRPLBinaryCodecException.
Proof.
  apply (native_point_rejected no_codec no_codec "1.5").
  cbn. right. now left.
Defined.

(** *** Dict keys *)

Lemma mem_In k l : mem k l = true <-> In k l.
Proof.
  unfold mem. rewrite existsb_exists. split.
  - intros (x & Hx & E). apply String.eqb_eq in E. now subst.
  - intros H. exists k. split; [assumption | apply String.eqb_refl].
Qed.

Lemma set_eqb_spec a b :
  set_eqb a b = true <-> (forall k, In k a <-> In k b).
Proof.
  unfold set_eqb. rewrite andb_true_iff, !forallb_forall. split.
  - intros [H1 H2] k. split; intros H.
    + apply mem_In, H1, H.
    + apply mem_In, H2, H.
  - intros H. split; intros k Hk; apply mem_In, H, Hk.
Qed.

Ltac perm3 :=
  first
    [ solve [apply Permutation_refl]
    | solve [apply perm_skip, perm_swap]
    | solve [apply perm_swap]
    | solve [eapply perm_trans; [apply perm_swap | apply perm_skip, perm_swap]]
    | solve [eapply perm_trans; [apply perm_skip, perm_swap | apply perm_swap]]
    | solve [eapply perm_trans; [apply perm_skip, perm_swap|];
             eapply perm_trans; [apply perm_swap | apply perm_skip, perm_swap]] ].

Lemma three_keys_permutation (k1 k2 k3 : string) :
  (forall k, In k [k1; k2; k3] <-> In k expected_keys) ->
  Permutation [k1; k2; k3] expected_keys.
Proof.
  intros H.
  assert (H1 : In k1 expected_keys) by (apply H; cbn; auto).
  assert (H2 : In k2 expected_keys) by (apply H; cbn; auto).
  assert (H3 : In k3 expected_keys) by (apply H; cbn; auto).
  assert (Hc : In "currency" [k1; k2; k3]) by (apply H; cbn; auto).
  assert (Hi : In "issuer" [k1; k2; k3]) by (apply H; cbn; auto).
  assert (Hv : In "value" [k1; k2; k3]) by (apply H; cbn; auto).
  unfold expected_keys in *. cbn [In] in *.
  destruct H1 as [<- | [<- | [<- | []]]];
    destruct H2 as [<- | [<- | [<- | []]]];
    destruct H3 as [<- | [<- | [<- | []]]];
    try (exfalso;
         repeat match goal with
                | H : _ \/ _ |- _ => destruct H
                | H : False |- _ => destruct H
                | H : _ = _ |- _ => discriminate H
                end; fail).
  all: perm3.
Qed.

Lemma is_valid_permutation (value : dict) :
  _is_valid_issued_currency_amount value = true
  <-> Permutation (keys value) expected_keys.
Proof.
  unfold _is_valid_issued_currency_amount. split.
  - destruct (Nat.eqb_spec (List.length (keys value)) 3) as [Hl | Hl];
      [|discriminate]. cbn [negb].
    fold expected_keys.
    destruct (set_eqb (keys value) expected_keys) eqn:E; [|discriminate].
    intros _. pose proof (proj1 (set_eqb_spec _ _) E) as E'. clear E.
    destruct (keys value) as [|k1 [|k2 [|k3 [|k4 r]]]]; try discriminate Hl.
    now apply three_keys_permutation.
  - intros P. rewrite (Permutation_length P). cbn [expected_keys List.length
      Nat.eqb negb].
    fold expected_keys.
    replace (set_eqb (keys value) expected_keys) with true; [reflexivity|].
    symmetry. apply (proj2 (set_eqb_spec _ _)). intros k. split; intros Hk.
    + now apply (Permutation_in _ P).
    + now apply (Permutation_in _ (Permutation_sym P)).
Qed.

(** X3: a dict is accepted as an issued-currency amount exactly when its
    keys are "currency", "issuer" and "value", each once, in any order. *)
Theorem is_valid_issued_currency_amount_keys (value : dict) :
  _is_valid_issued_currency_amount value = true
  <-> Permutation (keys value) expected_keys.
Proof. apply is_valid_permutation. Qed.

Lemma getitem_In (d : dict) k v :
  NoDup (keys d) -> In (k, v) d -> getitem d k = Ok v.
Proof.
  induction d as [|[k' v'] r IH]; intros Hnd Hin; [destruct Hin|].
  cbn [keys map fst] in Hnd. inversion Hnd as [|x l Hnotin Hnd']; subst.
  cbn [getitem]. destruct Hin as [[= -> ->] | Hin].
  - now rewrite String.eqb_refl.
  - destruct (String.eqb_spec k k') as [-> | Hne].
    + exfalso. apply Hnotin. change k' with (fst (k', v)).
      now apply in_map.
    + now apply IH.
Qed.

Lemma valid_keys_NoDup (value : dict) :
  _is_valid_issued_currency_amount value = true -> NoDup (keys value).
Proof.
  intros H. apply is_valid_permutation in H.
  apply (Permutation_NoDup (Permutation_sym H)).
  unfold expected_keys.
  repeat constructor; cbn; intuition discriminate.
Qed.

(** X4: [from_value] on a dict.  A dict whose keys are not exactly the
    three expected ones is refused with the codec's exception and the peer
    codecs are not consulted.  On a dict with the three keys, whatever the
    order of its items, the key lookups cannot fail: the result is the
    8-byte value field followed by the currency bytes and the issuer bytes,
    and the errors of the three encoders come out in that order. *)
Theorem from_value_dict (Currency AccountID : PeerCodec) (d : dict) :
  (~ Permutation (keys d) expected_keys ->
   from_value Currency AccountID (VDict d) = Raise XRPLBinaryCodecException)
  /\ (forall v c i,
         Permutation (keys d) expected_keys ->
         In ("value", v) d -> In ("currency", c) d -> In ("issuer", i) d ->
         from_value Currency AccountID (VDict d)
         = (amount_bytes <- _serialize_issued_currency_value v ;;
            currency_bytes <- from_value_to_bytes Currency c ;;
            issuer_bytes <- from_value_to_bytes AccountID i ;;
            Ok {| buffer :=
                   (amount_bytes ++ currency_bytes ++ issuer_bytes)%list |})).
Proof.
  split.
  - intros H. unfold from_value.
    destruct (_is_valid_issued_currency_amount d) eqn:E; [|reflexivity].
    apply is_valid_permutation in E. contradiction.
  - intros v c i P Hv Hc Hi. apply is_valid_permutation in P.
    pose proof (valid_keys_NoDup d P) as Hnd.
    unfold from_value, _serialize_issued_currency_amount. rewrite P.
    rewrite (getitem_In d "value" v Hnd Hv). cbn [bind].
    destruct (_serialize_issued_currency_value v); [|reflexivity].
    cbn [bind]. rewrite (getitem_In d "currency" c Hnd Hc). cbn [bind].
    destruct (from_value_to_bytes Currency c); [|reflexivity].
    cbn [bind]. rewrite (getitem_In d "issuer" i Hnd Hi). cbn [bind].
    destruct (from_value_to_bytes AccountID i); reflexivity.
Qed.

Lemma from_value_dict_witness :
  from_value blank_codec blank_codec (VDict [("value", "1")])
  = Raise XRPLBinaryCodecException
  /\ from_value blank_codec blank_codec
       (VDict [("issuer", "r"); ("value", "1"); ("currency", "USD")])
     = Ok {| buffer :=
              ([xd4; x83; x8d; x7e; xa4; xc6; x80; x00]
               ++ List.repeat x00 20 ++ List.repeat x00 20)%list |}.
Proof.
  split.
  - apply (proj1 (from_value_dict blank_codec blank_codec
                    [("value", "1")])).
    intros P. apply Permutation_length in P. discriminate P.
  - apply (proj2 (from_value_dict blank_codec blank_codec
                    [("issuer", "r"); ("value", "1"); ("currency", "USD")])
             "1" "USD" "r").
    + cbn. perm3.
    + cbn. auto.
    + cbn. auto.
    + cbn. auto.
Defined.

End Shapes.

(** ** Layout and dispatch *)

Section Layout.
Import Py decimal amount.

Lemma be_bytes_length len n : List.length (be_bytes len n) = len.
Proof. induction len; cbn; congruence. Qed.

Lemma is_native_be_bytes n rest :
  is_native {| buffer := (be_bytes 8 n ++ rest)%list |}
  = Ok (negb (Z.testbit n 63)).
Proof.
  unfold is_native. cbn [buffer be_bytes app first_byte bind].
  change 0x80 with (2 ^ 7). rewrite land_pow2_zero by lia.
  change (Z.of_nat 7) with 7.
  now rewrite (be_bytes_first_bit n 7) by lia.
Qed.

(** Values that are not finite numbers do not pass the validator: the
    comparison of their exponent with an integer is a TypeError. *)
Lemma verify_iou_value_special d :
  (forall sign c e, d <> Finite sign c e) ->
  verify_iou_value d = Raise TypeError.
Proof.
  intros H. destruct d as [s c e | s | s [] p]; try reflexivity.
  now contradiction (H s c e).
Qed.

(** What a successful serialization of an issued value went through. *)
Lemma serialize_ok_inv value bs :
  _serialize_issued_currency_value value = Ok bs ->
  exists (sign : bool) c e,
    of_str value = Ok (Finite sign c e) /\ 0 <= c
    /\ ((c = 0 /\ bs = zero_field)
        \/ (c <> 0
            /\ verify_iou_value (Finite sign c e) = Ok tt
            /\ exists m e',
                downscale (fst (upscale c e)) (snd (upscale c e))
                = Ok (m, e')
                /\ e' <= _MAX_IOU_EXPONENT /\ m <= _MAX_MANTISSA
                /\ 0 <= value_field sign m e' < 2 ^ 64
                /\ bs = be_bytes 8 (value_field sign m e'))).
Proof.
  intros Hs.
  destruct (of_str value) as [d|] eqn:Hp;
    [|unfold _serialize_issued_currency_value in Hs; rewrite Hp in Hs;
      discriminate].
  assert (Hv : verify_iou_value d = Ok tt).
  { unfold _serialize_issued_currency_value in Hs. rewrite Hp in Hs.
    cbn [bind] in Hs.
    destruct (verify_iou_value d) as [[]|]; [reflexivity | discriminate]. }
  destruct d as [sign c e | s | s g p];
    try (rewrite verify_iou_value_special in Hv by discriminate;
         discriminate).
  exists sign, c, e.
  pose proof (of_str_coeff_nonneg value sign c e Hp) as H0.
  split; [reflexivity|]. split; [assumption|].
  destruct (Z.eq_dec c 0) as [-> | Hc].
  - left. split; [reflexivity|].
    rewrite (serialize_zero value _ Hp eq_refl) in Hs. now injection Hs.
  - right. split; [assumption|]. split; [assumption|].
    rewrite (serialize_nonzero value sign c e Hp Hc Hv) in Hs.
    destruct (downscale _ _) as [[m2 e2]|]; [|discriminate].
    cbn [bind fst snd] in Hs. exists m2, e2. split; [reflexivity|].
    destruct (Z.gtb_spec e2 _MAX_IOU_EXPONENT) as [He | He];
      [rewrite pack_overflow in Hs by (left; lia); discriminate|].
    destruct (Z.gtb_spec m2 _MAX_MANTISSA) as [Hm | Hm];
      [rewrite pack_overflow in Hs by (right; lia); discriminate|].
    rewrite pack_value_field in Hs by assumption.
    apply to_bytes_ok in Hs as [Hr ->]. repeat split; try assumption; lia.
Qed.

Lemma value_field_bit63 (sign : bool) m e :
  Z.testbit (value_field sign m e) 63 = true.
Proof.
  unfold value_field. rewrite !Z.lor_spec.
  destruct sign; [reflexivity|]. now rewrite Z.lor_spec.
Qed.

(** X5: whatever string the native encoder accepts, it reads as an integer
    between 0 and 10^17, and the result is eight bytes that hold that
    integer with bit 62 set and bit 63 clear, so that [is_native] holds of
    the amount. *)
Theorem native_encoding_layout (s : string) (bs : list byte) :
  _serialize_xrp_amount s = Ok bs ->
  exists n,
    int s = Ok n /\ 0 <= n <= 10 ^ 17
    /\ List.length bs = 8%nat
    /\ from_bytes bs = n + 2 ^ 62
    /\ is_native {| buffer := bs |} = Ok true.
Proof.
  intros Hs.
  destruct (serialize_xrp_amount_ok s bs Hs) as (n & Hi & Hn & ->).
  exists n. split; [assumption|]. split; [assumption|].
  split; [apply be_bytes_length|]. split.
  - rewrite from_bytes_be_bytes. apply Z.mod_small.
    change (256 ^ Z.of_nat 8) with (2 ^ 64). lia.
  - rewrite <- (app_nil_r (be_bytes 8 _)), is_native_be_bytes.
    rewrite testbit_small; [reflexivity | lia].
Qed.

Lemma native_encoding_layout_witness :
  exists n,
    int " 25 " = Ok n /\ 0 <= n <= 10 ^ 17
    /\ List.length [x40; x00; x00; x00; x00; x00; x00; x19] = 8%nat
    /\ from_bytes [x40; x00; x00; x00; x00; x00; x00; x19] = n + 2 ^ 62
    /\ is_native {| buffer := [x40; x00; x00; x00; x00; x00; x00; x19] |}
       = Ok true.
Proof.
  exact (native_encoding_layout " 25 " _ eq_refl).
Defined.

Lemma issued_layout (value : string) (bs rest : list byte) :
  _serialize_issued_currency_value value = Ok bs ->
  List.length bs = 8%nat
  /\ Z.testbit (from_bytes bs) 63 = true
  /\ is_native {| buffer := (bs ++ rest)%list |} = Ok false.
Proof.
  intros Hs.
  destruct (serialize_ok_inv value bs Hs)
    as (sign & c & e & _ & _ & [[_ ->] | (_ & _ & m & e' & _ & _ & _ & Hr & ->)]).
  - repeat split.
  - split; [apply be_bytes_length|]. split.
    + rewrite from_bytes_be_bytes, Z.mod_small
        by (change (256 ^ Z.of_nat 8) with (2 ^ 64); lia).
      apply value_field_bit63.
    + now rewrite is_native_be_bytes, value_field_bit63.
Qed.

(** X6: whatever string the issued-value serializer accepts, the result is
    eight bytes with bit 63 set, so that an amount that starts with them is
    not native. *)
Theorem issued_encoding_layout (value : string) (bs rest : list byte) :
  _serialize_issued_currency_value value = Ok bs ->
  List.length bs = 8%nat
  /\ Z.testbit (from_bytes bs) 63 = true
  /\ is_native {| buffer := (bs ++ rest)%list |} = Ok false.
Proof. apply issued_layout. Qed.

Lemma issued_encoding_layout_witness :
  List.length [xd4; x83; x8d; x7e; xa4; xc6; x80; x00] = 8%nat
  /\ Z.testbit (from_bytes [xd4; x83; x8d; x7e; xa4; xc6; x80; x00]) 63
     = true
  /\ is_native
       {| buffer := ([xd4; x83; x8d; x7e; xa4; xc6; x80; x00]
                     ++ List.repeat x00 40)%list |}
     = Ok false.
Proof.
  exact (issued_encoding_layout "1" _ (List.repeat x00 40) eq_refl).
Defined.

(** X7: values that [Decimal] reads but that are not finite numbers
    (infinities and NaNs, in any spelling) make the issued-value serializer
    raise TypeError, not the codec's exception. *)
Theorem issued_special_type_error (value : string) (d : Decimal) :
  of_str value = Ok d ->
  (forall sign c e, d <> Finite sign c e) ->
  _serialize_issued_currency_value value = Raise TypeError.
Proof.
  intros Hp Hd. unfold _serialize_issued_currency_value.
  rewrite Hp. cbn [bind]. now rewrite verify_iou_value_special.
Qed.

Lemma issued_special_type_error_witness :
  _serialize_issued_currency_value "-Infinity" = Raise TypeError
  /\ _serialize_issued_currency_value "nan" = Raise TypeError.
Proof.
  split.
  - apply (issued_special_type_error "-Infinity" (Infinity true) eq_refl).
    discriminate.
  - apply (issued_special_type_error "nan" (NaN false false 0) eq_refl).
    discriminate.
Defined.

(** *** Reading an amount from a cursor *)

Lemma firstn_skipn_app (l : list byte) n :
  (firstn n l ++ skipn n l)%list = l.
Proof. apply firstn_skipn. Qed.

(** X8: when [from_parser] returns, the bytes of the amount followed by the
    rest of the cursor are the bytes it was given; the amount has 8 bytes
    if it is native and 48 if it is not, and nothing else: the length it
    reads agrees with [is_native]. *)
Theorem from_parser_split (parser : BinaryParser) (a : Amount)
    (rest : BinaryParser) :
  from_parser parser = Ok (a, rest) ->
  (buffer a ++ rest)%list = parser
  /\ ((is_native a = Ok true /\ List.length (buffer a) = 8%nat)
      \/ (is_native a = Ok false /\ List.length (buffer a) = 48%nat)).
Proof.
  unfold from_parser. destruct parser as [|b tl]; [discriminate|].
  cbn [peek bind]. unfold read.
  set (n := if Z.land (Z_of_byte b) 128 =? 0
            then _NATIVE_AMOUNT_BYTE_LENGTH
            else _CURRENCY_AMOUNT_BYTE_LENGTH).
  destruct (Nat.ltb_spec (List.length (b :: tl)) n) as [Hlt | Hge];
    [discriminate|].
  cbn [bind fst snd]. intros [= <- <-]. cbn [buffer].
  split; [apply firstn_skipn|].
  assert (Hn : (0 < n)%nat) by (subst n; destruct (_ =? 0); cbv; lia).
  assert (Hf : is_native {| buffer := firstn n (b :: tl) |}
               = Ok (Z.land (Z_of_byte b) 128 =? 0)).
  { destruct n; [lia | reflexivity]. }
  rewrite Hf, firstn_length_le by assumption.
  subst n. destruct (Z.land (Z_of_byte b) 128 =? 0); [left | right];
    split; reflexivity.
Qed.

Lemma from_parser_split_witness :
  ([x40; x00; x00; x00; x00; x00; x00; x07] ++ [xff; xff])%list
  = [x40; x00; x00; x00; x00; x00; x00; x07; xff; xff]
  /\ ((is_native {| buffer := [x40; x00; x00; x00; x00; x00; x00; x07] |}
       = Ok true
       /\ List.length [x40; x00; x00; x00; x00; x00; x00; x07] = 8%nat)
      \/ (is_native {| buffer := [x40; x00; x00; x00; x00; x00; x00; x07] |}
          = Ok false
          /\ List.length [x40; x00; x00; x00; x00; x00; x00; x07]
             = 48%nat)).
Proof.
  exact (from_parser_split
           [x40; x00; x00; x00; x00; x00; x00; x07; xff; xff]
           {| buffer := [x40; x00; x00; x00; x00; x00; x00; x07] |}
           [xff; xff] eq_refl).
Defined.

Lemma from_parser_prefix (bs trailing : list byte) :
  (is_native {| buffer := bs |} = Ok true /\ List.length bs = 8%nat)
  \/ (is_native {| buffer := bs |} = Ok false /\ List.length bs = 48%nat) ->
  from_parser (bs ++ trailing)%list = Ok ({| buffer := bs |}, trailing).
Proof.
  intros H. unfold from_parser.
  destruct bs as [|b tl]; [destruct H as [[_ H] | [_ H]]; discriminate H|].
  cbn [app peek bind]. unfold is_native in H.
  cbn [buffer first_byte bind] in H. unfold read.
  assert (E : forall n, List.length (b :: tl) = n ->
              (if Nat.ltb (List.length (b :: tl ++ trailing)) n
               then Raise BufferUnderrun
               else Ok (firstn n (b :: tl ++ trailing),
                        skipn n (b :: tl ++ trailing)))
              = Ok (b :: tl, trailing)).
  { intros n Hn.
    change (b :: tl ++ trailing)%list with ((b :: tl) ++ trailing)%list.
    destruct (Nat.ltb_spec (List.length ((b :: tl) ++ trailing)) n) as [Hlt|_].
    - rewrite length_app in Hlt. lia.
    - rewrite <- Hn, firstn_app, skipn_app, Nat.sub_diag, firstn_all,
        skipn_all. cbn [firstn skipn]. now rewrite app_nil_r. }
  unfold _NATIVE_AMOUNT_BYTE_LENGTH, _CURRENCY_AMOUNT_BYTE_LENGTH,
    BinaryParser.
  destruct H as [[Hb Hl] | [Hb Hl]]; injection Hb as Hb; rewrite Hb;
    cbv iota; rewrite (E _ Hl); reflexivity.
Qed.

(** X9: parsing what was encoded.  If the peer codecs produce 20 bytes
    each, then an amount built by [from_value], from a string or from a
    dict, is read back by [from_parser] from its own bytes, whatever
    follows them in the cursor, and what follows is left in the cursor. *)
Theorem from_parser_from_value (Currency AccountID : PeerCodec)
    (value : value_t) (a : Amount) (trailing : list byte) :
  (forall s bs, from_value_to_bytes Currency s = Ok bs ->
                List.length bs = 20%nat) ->
  (forall s bs, from_value_to_bytes AccountID s = Ok bs ->
                List.length bs = 20%nat) ->
  from_value Currency AccountID value = Ok a ->
  from_parser (buffer a ++ trailing)%list = Ok (a, trailing).
Proof.
  intros HC HA Hv. destruct a as [bs]. cbn [buffer].
  apply from_parser_prefix. destruct value as [s | d]; cbn [from_value] in Hv.
  - left. destruct (_serialize_xrp_amount s) as [bs'|] eqn:Hs;
      [|discriminate].
    cbn [bind] in Hv. injection Hv as <-.
    destruct (serialize_xrp_amount_ok s bs' Hs) as (n & _ & Hn & ->).
    split; [|apply be_bytes_length].
    rewrite <- (app_nil_r (be_bytes 8 _)), is_native_be_bytes.
    rewrite testbit_small; [reflexivity | lia].
  - right. destruct (_is_valid_issued_currency_amount d); [|discriminate].
    unfold _serialize_issued_currency_amount in Hv.
    destruct (getitem d "value") as [v|]; [|discriminate]. cbn [bind] in Hv.
    destruct (_serialize_issued_currency_value v) as [vb|] eqn:Hs;
      [|discriminate]. cbn [bind] in Hv.
    destruct (getitem d "currency") as [c|]; [|discriminate].
    cbn [bind] in Hv.
    destruct (from_value_to_bytes Currency c) as [cb|] eqn:Hc;
      [|discriminate]. cbn [bind] in Hv.
    destruct (getitem d "issuer") as [i|]; [|discriminate].
    cbn [bind] in Hv.
    destruct (from_value_to_bytes AccountID i) as [ib|] eqn:Hi;
      [|discriminate]. cbn [bind] in Hv. injection Hv as <-.
    destruct (issued_layout v vb (cb ++ ib)%list Hs)
      as (Hl & _ & Hn).
    split; [assumption|].
    rewrite !length_app, Hl, (HC _ _ Hc), (HA _ _ Hi). reflexivity.
Qed.

Lemma from_parser_from_value_witness :
  from_parser
    (buffer {| buffer := ([xd4; x83; x8d; x7e; xa4; xc6; x80; x00]
                          ++ List.repeat x00 20 ++ List.repeat x00 20)%list |}
     ++ [x01; x02])%list
  = Ok ({| buffer := ([xd4; x83; x8d; x7e; xa4; xc6; x80; x00]
                      ++ List.repeat x00 20 ++ List.repeat x00 20)%list |},
        [x01; x02]).
Proof.
  apply (from_parser_from_value blank_codec blank_codec
           (VDict [("value", "1"); ("currency", "USD"); ("issuer", "r")])).
  - intros s bs [= <-]. reflexivity.
  - intros s bs [= <-]. reflexivity.
  - reflexivity.
Defined.

End Layout.

(** ** The validators *)

Section Validators.
Import Py decimal amount.

Lemma verify_iou_value_too_long (sign : bool) c e :
  10 ^ 66 <= c ->
  _MIN_IOU_EXPONENT <= e <= _MAX_IOU_EXPONENT ->
  verify_iou_value (Finite sign c e) = Raise DecimalOverflow.
Proof.
  intros Hc He. unfold verify_iou_value. cbn [is_zero].
  destruct (Z.eqb_spec c 0); [lia|].
  cbn [decimal.exponent exponent_gtb exponent_ltb bind].
  change (prec context >? _MAX_IOU_PRECISION) with false. cbv iota.
  destruct (Z.gtb_spec e _MAX_IOU_EXPONENT); [lia|]. cbn [bind].
  destruct (Z.ltb_spec e _MIN_IOU_EXPONENT); [lia|]. cbn [bind].
  unfold _verify_no_decimal.
  cbn [decimal.exponent int_of_exponent bind].
  rewrite of_str_power_of_ten
    by (unfold _MIN_IOU_EXPONENT, _MAX_IOU_EXPONENT, MIN_ETINY, MIN_EMIN,
          MAX_PREC, MAX_EMAX in *; lia).
  cbn [bind mul sign_of xorb].
  rewrite Z.mul_1_r. replace (e + - (e - 15)) with 15 by lia.
  unfold fix_. destruct (Z.eqb_spec c 0); [lia|].
  destruct (ndigits_spec c ltac:(lia)) as (HL & Hlo & Hhi).
  assert (67 <= ndigits c).
  { destruct (Z.le_gt_cases 67 (ndigits c)) as [|Hlt]; [assumption|].
    assert (10 ^ ndigits c <= 10 ^ 66) by (apply pow10_le_mono; lia). lia. }
  unfold Etop, context, _MAX_IOU_PRECISION, _MAX_IOU_EXPONENT.
  cbn [prec Emax].
  destruct (Z.gtb_spec (ndigits c + 15 - 16) (80 - 16 + 1)); [reflexivity|].
  lia.
Qed.

(** X10: the validator of issued values, on a nonzero finite number.  An
    exponent outside [-96, 80] is refused with the codec's exception.  With
    the exponent inside, a coefficient of at most 65 digits always passes
    (the check on the scaled product never fires), and a coefficient of 67
    digits or more makes the scaling multiplication raise
    decimal.Overflow. *)
Theorem verify_iou_value_cases (sign : bool) (c e : Z) :
  0 < c ->
  (e < _MIN_IOU_EXPONENT \/ _MAX_IOU_EXPONENT < e ->
   verify_iou_value (Finite sign c e) = Raise XRPLBinaryCodecException)
  /\ (_MIN_IOU_EXPONENT <= e <= _MAX_IOU_EXPONENT ->
      (c < 10 ^ 65 -> verify_iou_value (Finite sign c e) = Ok tt)
      /\ (10 ^ 66 <= c ->
          verify_iou_value (Finite sign c e) = Raise DecimalOverflow)).
Proof.
  intros Hc. split; [|split].
  - apply verify_iou_value_out_of_range. lia.
  - intros Hlt. apply verify_iou_value_in_range; [lia | assumption].
  - intros Hge. now apply verify_iou_value_too_long.
Qed.

Lemma verify_iou_value_cases_witness :
  verify_iou_value (Finite false 5 81) = Raise XRPLBinaryCodecException
  /\ verify_iou_value (Finite true 12345678901234567890 (-96)) = Ok tt
  /\ verify_iou_value
       (Finite false
          1000000000000000000000000000000000000000000000000000000000000000000
          0)
     = Raise DecimalOverflow.
Proof.
  split; [|split].
  - apply (proj1 (verify_iou_value_cases false 5 81 eq_refl)).
    right. reflexivity.
  - destruct (verify_iou_value_cases true 12345678901234567890 (-96))
      as [_ H]; [reflexivity|].
    apply H; [split; discriminate|].
    apply Z.ltb_lt. vm_compute. reflexivity.
  - destruct (verify_iou_value_cases false
                1000000000000000000000000000000000000000000000000000000000000000000
                0) as [_ H]; [reflexivity|].
    apply H; [split; discriminate|].
    apply Z.leb_le. vm_compute. reflexivity.
Defined.

(** *** The native validator on any finite number *)

Lemma pow10_pos z : 0 <= z -> 0 < 10 ^ z.
Proof. intros. apply Z.pow_pos_nonneg; lia. Qed.

(** How [_cmp] orders a positive number against a power of ten. *)
Lemma cmp_power_of_ten c e k :
  0 < c ->
  (cmp (Finite false c e) (Finite false 1 k) = -1
   <-> ~ scaled_le 1 k c e)
  /\ (cmp (Finite false c e) (Finite false 1 k) = 1
      <-> ~ scaled_le c e 1 k).
Proof.
  intros Hc. unfold cmp, adjusted, scaled_le.
  destruct (ndigits_spec c Hc) as (HL & Hlo & Hhi).
  change (ndigits 1) with 1. set (L := ndigits c) in *.
  destruct (Z.eqb_spec c 0); [lia|]. change (1 =? 0) with false.
  change (negb false && false) with false. cbv iota. cbn [signum Z.opp].
  rewrite !Z.mul_1_l.
  destruct (Z.eqb_spec (e + L - 1) (k + 1 - 1)) as [E | E].
  - (* same adjusted exponent: k = e + L - 1 >= e *)
    assert (Hk : k = e + (L - 1)) by lia.
    rewrite (Z.min_r k e), (Z.min_l e k) by lia.
    rewrite (Z.max_l 0 (e - k)), (Z.max_r 0 (k - e)) by lia.
    rewrite Z.sub_diag, Z.pow_0_r, Z.mul_1_r.
    replace (k - e) with (L - 1) by lia.
    destruct (Z.eqb_spec c (10 ^ (L - 1))); [split; split; intros; lia|].
    destruct (Z.ltb_spec c (10 ^ (L - 1))); [lia|].
    split; split; intros; lia.
  - destruct (Z.gtb_spec (e + L - 1) (k + 1 - 1)) as [G | G].
    + (* the number is above the power of ten *)
      assert (Hgt : 10 ^ (k - Z.min e k) < c * 10 ^ (e - Z.min e k)).
      { assert (H1 : 10 ^ (k - Z.min e k) < 10 ^ (L - 1 + (e - Z.min e k)))
          by (apply pow10_lt_mono; lia).
        rewrite Z.pow_add_r in H1 by lia.
        pose proof (pow10_pos (e - Z.min e k) ltac:(lia)). nia. }
      rewrite (Z.min_comm k e).
      split; split; intros; try lia.
    + (* the number is below the power of ten *)
      assert (Hlt : c * 10 ^ (e - Z.min e k) < 10 ^ (k - Z.min e k)).
      { assert (H1 : 10 ^ (L + (e - Z.min e k)) <= 10 ^ (k - Z.min e k))
          by (apply pow10_le_mono; lia).
        rewrite Z.pow_add_r in H1 by lia.
        pose proof (pow10_pos (e - Z.min e k) ltac:(lia)). nia. }
      rewrite (Z.min_comm k e).
      split; split; intros; try lia.
Qed.

Lemma eq_int_of_int r k :
  -1 <= r <= 1 -> -1 <= k <= 1 -> eq_int (of_int r) k = Ok (r =? k).
Proof.
  intros Hr Hk.
  assert (Cr : r = -1 \/ r = 0 \/ r = 1) by lia.
  assert (Ck : k = -1 \/ k = 0 \/ k = 1) by lia.
  destruct Cr as [-> | [-> | ->]]; destruct Ck as [-> | [-> | ->]];
    reflexivity.
Qed.

Lemma cmp_range a b : -1 <= cmp a b <= 1.
Proof.
  unfold cmp, signum.
  repeat match goal with
         | |- context [match ?x with _ => _ end] => destruct x
         end; lia.
Qed.

(** X11: the native validator on any string without a point that [Decimal]
    reads as a finite number, exponent notation included: it accepts the
    string exactly when the number is zero, or is not negative and lies
    between 10^-6 and 10^17, both bounds included; otherwise it raises the
    codec's exception, and nothing else. *)
Theorem verify_xrp_value_range (s : string) (sign : bool) (c e : Z) :
  _contains_decimal s = true ->
  of_str s = Ok (Finite sign c e) ->
  (verify_xrp_value s = Ok tt
   <-> c = 0 \/ (sign = false /\ scaled_le 1 (-6) c e
                 /\ scaled_le c e 1 17))
  /\ (verify_xrp_value s = Ok tt
      \/ verify_xrp_value s = Raise XRPLBinaryCodecException).
Proof.
  intros Hd Hp. pose proof (of_str_coeff_nonneg s sign c e Hp) as H0.
  unfold verify_xrp_value. rewrite Hd, Hp. cbn [negb bind is_zero].
  destruct (Z.eqb_spec c 0) as [-> | Hc].
  { split; [split; auto | now left]. }
  assert (C1 : compare context (Finite sign c e) _MIN_XRP
               = Ok (of_int (cmp (Finite sign c e) _MIN_XRP)))
    by reflexivity.
  assert (C2 : compare context (Finite sign c e) _MAX_DROPS
               = Ok (of_int (cmp (Finite sign c e) _MAX_DROPS)))
    by reflexivity.
  rewrite C1, C2. clear C1 C2. cbn [bind].
  rewrite !eq_int_of_int by (try apply cmp_range; lia).
  destruct sign.
  - assert (E : cmp (Finite true c e) _MIN_XRP = -1).
    { unfold cmp, _MIN_XRP. destruct (Z.eqb_spec c 0); [lia | reflexivity]. }
    rewrite E. cbn. split; [|now right].
    split; [discriminate | intros [H | [H _]]; [lia | discriminate]].
  - destruct (cmp_power_of_ten c e (-6) ltac:(lia)) as [Hlo _].
    destruct (cmp_power_of_ten c e 17 ltac:(lia)) as [_ Hhi].
    fold _MIN_XRP in Hlo. fold _MAX_DROPS in Hhi. cbn [bind].
    destruct (Z.eqb_spec (cmp (Finite false c e) _MIN_XRP) (-1)) as [E1 | E1].
    + cbn [bind]. split; [|now right].
      split; [discriminate|].
      intros [H | (_ & H & _)]; [lia|]. now apply Hlo in E1.
    + cbn [bind].
      destruct (Z.eqb_spec (cmp (Finite false c e) _MAX_DROPS) 1) as [E2 | E2].
      * split; [|now right]. split; [discriminate|].
        intros [H | (_ & _ & H)]; [lia|]. now apply Hhi in E2.
      * split; [|now left]. split; [|reflexivity]. intros _. right.
        split; [reflexivity|]. split.
        -- destruct (Z.le_gt_cases (1 * 10 ^ (-6 - Z.min (-6) e))
                       (c * 10 ^ (e - Z.min (-6) e))) as [H | H];
             [exact H|].
           exfalso. apply E1, Hlo. unfold scaled_le. lia.
        -- destruct (Z.le_gt_cases (c * 10 ^ (e - Z.min e 17))
                       (1 * 10 ^ (17 - Z.min e 17))) as [H | H];
             [exact H|].
           exfalso. apply E2, Hhi. unfold scaled_le. lia.
Qed.


Lemma verify_xrp_value_range_witness :
  (verify_xrp_value "1e-6" = Ok tt
   <-> 1 = 0 \/ (false = false /\ scaled_le 1 (-6) 1 (-6)
                 /\ scaled_le 1 (-6) 1 17))
  /\ (verify_xrp_value "1e-6" = Ok tt
      \/ verify_xrp_value "1e-6" = Raise XRPLBinaryCodecException).
Proof.
  exact (verify_xrp_value_range "1e-6" false 1 (-6) eq_refl eq_refl).
Defined.

End Validators.

(** ** What [int] reads, and the end of the loops *)

Section Accepted.
Import Py decimal amount.

(** X13: every string that [int] reads, with its blanks, sign and
    underscores, is read by [Decimal] as the same integer, with exponent
    0.  The converse fails: [Decimal] reads "1e5" and [int] does not. *)
Theorem int_reads_decimal_reads (s : string) (n : Z) :
  int s = Ok n ->
  exists (neg : bool) v,
    of_str s = Ok (Finite neg v 0) /\ 0 <= v
    /\ ndigits v <= max_str_digits
    /\ n = (if neg then - v else v).
Proof. apply of_str_int. Qed.

Lemma int_reads_decimal_reads_witness :
  exists (neg : bool) v,
    of_str " -1_000 " = Ok (Finite neg v 0) /\ 0 <= v
    /\ ndigits v <= max_str_digits
    /\ -1000 = (if neg then - v else v).
Proof. exact (int_reads_decimal_reads " -1_000 " (-1000) eq_refl). Defined.



End Accepted.
